(** * Quant-AI-Trading-Engine: ledger, risk manager and trade executor

    A shallow embedding of [src/server/trading/RiskManager.ts] and of the
    trade path of [src/server/trading/Engine.ts], with the properties of
    the portfolio ledger stated and proved over it.

    The classes the engine is wired to are embedded as well, each in a
    module of its name: [AlertManager], [SentimentAnalyzer],
    [MLPredictor] and [ExchangeConnector]; the scheduling methods of
    [TradingEngine] ([start], [stop], [toggleStatus], [tick]) are in
    [Scheduler].  Whatever a method takes from its environment (random
    draws, the clock, the exchange's answer) is an argument.

    Numbers.  A JavaScript [number] is modelled as an exact rational [Q]:
    rounding, overflow, the infinities and [NaN] are outside the model.
    A quotient whose divisor is zero is [Infinity] or [NaN] in the source
    and [0] in [Q]; every statement below whose truth depends on the value
    of a quotient carries a hypothesis that makes its divisor non-zero.

    Objects.  [positions] and the market snapshot are JavaScript objects
    used as maps from a pair name to a value: they are [gmap string _].
    Keys are names of market pairs; a key that names a property every
    object inherits (such as [constructor]) is outside the model.
    [targetAllocations] is iterated in insertion order to build the list
    of rebalance orders, so it is an association list.

    Effects.  The class [RiskManager] mutates its one [portfolio] object
    in place; here every method takes the portfolio and returns the new
    one.  [AlertManager.sendAlert] only appends to the alert manager's own
    list, which none of the modelled methods reads: alerts are left out. *)

From Stdlib Require Import QArith Qabs Lqa Lia.
From stdpp Require Import gmap strings list fin_maps.

Open Scope Q_scope.

(** ** JavaScript number operations on [Q] *)

(** [a < b] *)
Definition Qlt_bool (a b : Q) : bool := negb (Qle_bool b a).

(** [a <= b], [a >= b], [a > b] are [Qle_bool a b], [Qle_bool b a] and
    [Qlt_bool b a]. *)

(** Truthiness of a number: [0] is falsy (so is [NaN], which is not
    modelled). *)
Definition truthy (a : Q) : bool := negb (Qeq_bool a 0).

(** [Math.max(a, b)] *)
Definition Math_max (a b : Q) : Q := if Qlt_bool a b then b else a.

(** [Math.min(a, b)] *)
Definition Math_min (a b : Q) : Q := if Qlt_bool b a then b else a.

(** [Math.abs(a)] *)
Definition Math_abs (a : Q) : Q := if Qlt_bool a 0 then - a else a.

(** A counter such as [totalTrades] read as a number. *)
Definition of_nat (n : nat) : Q := inject_Z (Z.of_nat n).

Inductive TradeType := BUY | SELL.

(** [array.slice(-k)]: the last [k] elements, all of them when there are
    fewer. *)
Definition sliceLast {A} (k : nat) (l : list A) : list A :=
  drop (length l - k) l.

Module RiskManager.

Record Position := { amount : Q; avgEntryPrice : Q }.

Record Portfolio := {
  balance : Q;
  initialBalance : Q;
  positions : gmap string Position;
  pnl : Q;
  drawdown : Q;
  maxDrawdown : Q;
  winRate : Q;
  sharpeRatio : Q;
  totalTrades : nat;
  winningTrades : nat;
  targetAllocations : list (string * Q)
}.

(** The field initialiser of [RiskManager.portfolio]. *)
Definition initial : Portfolio := {|
  balance := 100000;
  initialBalance := 100000;
  positions := ∅;
  pnl := 0;
  drawdown := 0;
  maxDrawdown := 0;
  winRate := 0;
  sharpeRatio := 1.5;
  totalTrades := 0;
  winningTrades := 0;
  targetAllocations :=
    [("BTC/USDT", 0.30); ("ETH/USDT", 0.25); ("SOL/USDT", 0.15);
     ("ADA/USDT", 0.15); ("XRP/USDT", 0.15)]
|}.

Definition maxDrawdownLimit : Q := 0.10.

(** The market snapshot, reduced to the one field the risk manager
    reads: [marketData !! pair] is [marketData[pair].last]; a pair with
    no ticker, or a ticker with no [last], is absent. *)
Definition lastPrice (marketData : gmap string Q) (pair : string) : option Q :=
  match marketData !! pair with
  | Some l => if truthy l then Some l else None
  | None => None
  end.

(** The valuation loop that opens both [updatePrices] and
    [checkRebalance]:
    [for (const [pair, position] of Object.entries(positions))
       if (marketData[pair] && marketData[pair].last)
         currentEquity += position.amount * marketData[pair].last]. *)
Definition currentEquity (p : Portfolio) (marketData : gmap string Q) : Q :=
  map_fold
    (fun pair position acc =>
       match lastPrice marketData pair with
       | Some currentPrice => acc + amount position * currentPrice
       | None => acc
       end)
    (balance p) (positions p).

(** [updatePrices].  The check for major price movements has an empty
    body, and the test [drawdown >= maxDrawdownLimit * 0.8] only sends an
    alert: neither changes the portfolio. *)
Definition updatePrices (p : Portfolio) (marketData : gmap string Q) : Portfolio :=
  let currentEquity := currentEquity p marketData in
  let peakEquity := Math_max (initialBalance p) currentEquity in
  let drawdown' := (peakEquity - currentEquity) / peakEquity in
  {| balance := balance p;
     initialBalance := initialBalance p;
     positions := positions p;
     pnl := currentEquity - initialBalance p;
     drawdown := drawdown';
     maxDrawdown :=
       if Qlt_bool (maxDrawdown p) drawdown' then drawdown' else maxDrawdown p;
     winRate := winRate p;
     sharpeRatio := sharpeRatio p;
     totalTrades := totalTrades p;
     winningTrades := winningTrades p;
     targetAllocations := targetAllocations p |}.

(** [shouldShutdown], without its alert. *)
Definition shouldShutdown (p : Portfolio) : bool :=
  Qle_bool maxDrawdownLimit (drawdown p).

Definition stopLossLimit : Q := 0.02.
Definition maxPositionSize : Q := 0.15.
Definition minPairs : nat := 5.

(** [calculatePositionSize]; [Object.keys(positions).length] is the size
    of the map. *)
Definition calculatePositionSize (p : Portfolio) (pair : string) (price : Q) : Q :=
  let riskAmount := balance p * 0.01 in
  let stopLossDistance := price * stopLossLimit in
  let positionSize := riskAmount / stopLossDistance in
  let maxAllowedValue := balance p * maxPositionSize in
  let positionSize :=
    if Qlt_bool maxAllowedValue (positionSize * price)
    then maxAllowedValue / price else positionSize in
  let activePairs := size (positions p) in
  if (minPairs <=? activePairs)%nat &&
     match positions p !! pair with Some _ => false | None => true end
  then positionSize * 0.5 else positionSize.

(** [executeTrade] returns the boolean of the source together with the
    portfolio after the call. *)
Definition executeTrade (p : Portfolio) (pair : string) (type : TradeType)
    (price amt : Q) : bool * Portfolio :=
  let value := price * amt in
  match type with
  | BUY =>
      if Qlt_bool (balance p) value then (false, p)
      else
        let pos := default {| amount := 0; avgEntryPrice := 0 |}
                           (positions p !! pair) in
        let totalValue := amount pos * avgEntryPrice pos + value in
        let amount' := amount pos + amt in
        (true,
         {| balance := balance p - value;
            initialBalance := initialBalance p;
            positions :=
              <[pair := {| amount := amount';
                           avgEntryPrice := totalValue / amount' |}]>
                (positions p);
            pnl := pnl p;
            drawdown := drawdown p;
            maxDrawdown := maxDrawdown p;
            winRate := winRate p;
            sharpeRatio := sharpeRatio p;
            totalTrades := totalTrades p;
            winningTrades := winningTrades p;
            targetAllocations := targetAllocations p |})
  | SELL =>
      match positions p !! pair with
      | None => (false, p)
      | Some pos =>
          if Qlt_bool (amount pos) amt then (false, p)
          else
            let pnl' := (price - avgEntryPrice pos) * amt in
            let winningTrades' :=
              if Qlt_bool 0 pnl' then S (winningTrades p)
              else winningTrades p in
            let totalTrades' := S (totalTrades p) in
            let winRate' := of_nat winningTrades' / of_nat totalTrades' * 100 in
            let amount' := amount pos - amt in
            (true,
             {| balance := balance p + value;
                initialBalance := initialBalance p;
                positions :=
                  if Qle_bool amount' 0.000001 then delete pair (positions p)
                  else <[pair := {| amount := amount';
                                    avgEntryPrice := avgEntryPrice pos |}]>
                         (positions p);
                pnl := pnl p + pnl';
                drawdown := drawdown p;
                maxDrawdown := maxDrawdown p;
                winRate := winRate';
                sharpeRatio := 1.5 + (winRate' - 50) * 0.05;
                totalTrades := totalTrades';
                winningTrades := winningTrades';
                targetAllocations := targetAllocations p |})
      end
  end.

Definition calculateTradePnL (p : Portfolio) (pair : string)
    (sellPrice amt : Q) : Q :=
  match positions p !! pair with
  | None => 0
  | Some pos => (sellPrice - avgEntryPrice pos) * amt
  end.

(** One element of the array returned by [checkRebalance]. *)
Record RebalanceTrade := {
  o_pair : string;
  o_action : TradeType;
  o_amount : Q;
  o_price : Q
}.

(** The body of the loop over [targetAllocations] for one entry: the
    order pushed for it, if any. *)
Definition rebalanceEntry (p : Portfolio) (marketData : gmap string Q)
    (currentEquity : Q) (entry : string * Q) : option RebalanceTrade :=
  let pair := entry.1 in
  let targetPct := entry.2 in
  let targetValue := currentEquity * targetPct in
  match lastPrice marketData pair with
  | None => None
  | Some currentPrice =>
      let currentValue :=
        match positions p !! pair with
        | Some currentPos => amount currentPos * currentPrice
        | None => 0
        end in
      let deviation := Math_abs (currentValue - targetValue) / currentEquity in
      if Qlt_bool 0.05 deviation then
        if Qlt_bool targetValue currentValue then
          let excessValue := currentValue - targetValue in
          let amountToSell := excessValue / currentPrice in
          Some {| o_pair := pair; o_action := SELL;
                  o_amount := amountToSell; o_price := currentPrice |}
        else
          let deficitValue := targetValue - currentValue in
          let amountToBuy := deficitValue / currentPrice in
          if Qle_bool deficitValue (balance p) then
            Some {| o_pair := pair; o_action := BUY;
                    o_amount := amountToBuy; o_price := currentPrice |}
          else None
      else None
  end.

Definition checkRebalance (p : Portfolio) (marketData : gmap string Q)
    : list RebalanceTrade :=
  let currentEquity := currentEquity p marketData in
  omap (rebalanceEntry p marketData currentEquity) (targetAllocations p).

End RiskManager.

Module NonFinite.

(** [RiskManager.executeTrade] once more, with the outcome of a division
    by zero kept apart.  In the source a quotient whose divisor is 0 is
    [NaN] or an infinity, and such a value stays non-finite through the
    product, the sum and the quotient of every later BUY on the pair:
    [None] stands for it.  The record has the two fields that decide
    whether a trade is accepted and what the positions become; the SELL
    branch reads [avgEntryPrice] only for pnl and the statistics, which
    are not kept here. *)
Record Position := { amount : Q; avgEntryPrice : option Q }.

Record Ledger := {
  balance : Q;
  positions : gmap string Position
}.

Definition initial : Ledger := {| balance := 100000; positions := ∅ |}.

(** [a / b]: not a finite number when [a] is not, or when [b] is 0. *)
Definition quotient (a : option Q) (b : Q) : option Q :=
  match a with
  | Some x => if truthy b then Some (x / b) else None
  | None => None
  end.

Definition executeTrade (l : Ledger) (pair : string) (type : TradeType)
    (price amt : Q) : bool * Ledger :=
  let value := price * amt in
  match type with
  | BUY =>
      if Qlt_bool (balance l) value then (false, l)
      else
        let pos := default {| amount := 0; avgEntryPrice := Some 0 |}
                           (positions l !! pair) in
        let totalValue :=
          (fun avg => amount pos * avg + value) <$> avgEntryPrice pos in
        let amount' := amount pos + amt in
        (true,
         {| balance := balance l - value;
            positions :=
              <[pair := {| amount := amount';
                           avgEntryPrice := quotient totalValue amount' |}]>
                (positions l) |})
  | SELL =>
      match positions l !! pair with
      | None => (false, l)
      | Some pos =>
          if Qlt_bool (amount pos) amt then (false, l)
          else
            let amount' := amount pos - amt in
            (true,
             {| balance := balance l + value;
                positions :=
                  if Qle_bool amount' 0.000001 then delete pair (positions l)
                  else <[pair := {| amount := amount';
                                    avgEntryPrice := avgEntryPrice pos |}]>
                         (positions l) |})
      end
  end.

End NonFinite.

Module TradingEngine.

Inductive Status := EXECUTED | FAILED | PENDING.

Record TradeLog := {
  id : string;
  timestamp : Z;
  pair : string;
  type : TradeType;
  price : Q;
  amount : Q;
  status : Status;
  pnl : option Q
}.

(** The two fields of the engine that the trade path reads and writes:
    the risk manager's portfolio and the trade log, oldest entry first. *)
Record Engine := {
  riskManager : RiskManager.Portfolio;
  logs : list TradeLog
}.

Definition initial : Engine :=
  {| riskManager := RiskManager.initial; logs := [] |}.

(** The first two statements of [executeTrade]: the price after the
    simulated slippage, [random] being the result of [Math.random()]. *)
Definition executedPrice (type : TradeType) (price random : Q) : Q :=
  let slippage := price * (random * 0.001) in
  match type with BUY => price + slippage | SELL => price - slippage end.

(** [executeTrade].  The results of the calls the source makes to its
    environment are arguments: [random] is the [Math.random()] of the
    slippage, in [0, 1); [newId] is the string made from the second
    [Math.random()]; [now] is [Date.now()].  The flag [isRebalance]
    only changes the text of the alert and is left out with it. *)
Definition executeTrade (e : Engine) (random : Q) (newId : string) (now : Z)
    (pair : string) (type : TradeType) (price amount : Q) : Engine :=
  let executedPrice := executedPrice type price random in
  let '(success, portfolio') :=
    RiskManager.executeTrade (riskManager e) pair type executedPrice amount in
  let log := {|
    id := newId;
    timestamp := now;
    pair := pair;
    type := type;
    price := executedPrice;
    amount := amount;
    status := if success then EXECUTED else FAILED;
    pnl :=
      if success then
        match type with
        | SELL => Some (RiskManager.calculateTradePnL portfolio' pair
                          executedPrice amount)
        | BUY => None
        end
      else None
  |} in
  let pushed := logs e ++ [log] in
  {| riskManager := portfolio';
     logs := if (1000 <? length pushed)%nat then tail pushed else pushed |}.

(** [getLogs]: [logs.slice(-100)]. *)
Definition getLogs (e : Engine) : list TradeLog :=
  drop (length (logs e) - 100) (logs e).

End TradingEngine.

Module AlertManager.

Inductive AlertType := TRADE | RISK | SYSTEM | PRICE.

Inductive Severity := INFO | WARNING | CRITICAL.

Record Alert := {
  id : string;
  timestamp : Z;
  type : AlertType;
  message : string;
  severity : Severity
}.

(** [sendAlert] on the list of stored alerts, oldest first.  [newId] and
    [now] are the results of [Math.random().toString(36).substring(7)]
    and [Date.now()]; a missing [severity] argument is ['INFO'].
    [dispatchNotification] only writes to the console. *)
Definition sendAlert (alerts : list Alert) (newId : string) (now : Z)
    (type : AlertType) (message : string) (severity : option Severity)
    : list Alert :=
  let alert := {|
    id := newId;
    timestamp := now;
    type := type;
    message := message;
    severity := default INFO severity
  |} in
  let pushed := alerts ++ [alert] in
  if (100 <? length pushed)%nat then tail pushed else pushed.

Definition getRecentAlerts (alerts : list Alert) : list Alert := alerts.

End AlertManager.

Module SentimentAnalyzer.

Definition pairs : list string :=
  ["BTC/USDT"; "ETH/USDT"; "SOL/USDT"; "ADA/USDT"; "XRP/USDT"].

(** The constructor: every pair starts neutral. *)
Definition initial : gmap string Q :=
  foldl (fun sentiments pair => <[pair := 0]> sentiments) ∅ pairs.

(** The loop of [fetchSentiment] over the pairs [ps], the first of which
    has index [i]; [random j] is the result of the [Math.random()] drawn
    for the pair of index [j].  Every pair of [pairs] has an entry from
    the constructor on, so the read [sentiments[pair]] finds one. *)
Fixpoint fetchLoop (ps : list string) (i : nat) (random : nat -> Q)
    (sentiments : gmap string Q) : gmap string Q :=
  match ps with
  | [] => sentiments
  | key :: rest =>
      let change := (random i - 0.5) * 0.2 in
      let newSentiment := default 0 (sentiments !! key) + change in
      let newSentiment := Math_max (-1) (Math_min 1 newSentiment) in
      fetchLoop rest (S i) random (<[key := newSentiment]> sentiments)
  end.

(** [fetchSentiment]: the sentiments after the call (which also returns
    them). *)
Definition fetchSentiment (sentiments : gmap string Q) (random : nat -> Q)
    : gmap string Q :=
  fetchLoop pairs 0 random sentiments.

(** [getSentiment]: [sentiments[pair] || 0]. *)
Definition getSentiment (sentiments : gmap string Q) (pair : string) : Q :=
  match sentiments !! pair with
  | Some v => if truthy v then v else 0
  | None => 0
  end.

End SentimentAnalyzer.

Module MLPredictor.

Inductive Action := Act (side : TradeType) | HOLD.

Record Signal := {
  pair : string;
  action : Action;
  price : Q;
  confidence : Q;
  sentimentScore : Q
}.

(** The body of the loop of [generateSignals] for a pair whose snapshot
    entry has the truthy last price [last]: [technicalFactor] is the
    first [Math.random()], [holdDraw] the one drawn in the HOLD branch. *)
Definition signalFor (pair : string) (last sentiment technicalFactor holdDraw : Q)
    : Signal :=
  let combinedScore := technicalFactor + sentiment * 0.3 in
  if Qlt_bool 0.85 combinedScore then
    {| pair := pair; action := Act BUY; price := last;
       confidence := Math_min 1 (0.80 + (combinedScore - 0.85));
       sentimentScore := sentiment |}
  else if Qlt_bool combinedScore 0.15 then
    {| pair := pair; action := Act SELL; price := last;
       confidence := Math_min 1 (0.80 + (0.15 - combinedScore));
       sentimentScore := sentiment |}
  else
    {| pair := pair; action := HOLD; price := last;
       confidence := holdDraw * 0.8;
       sentimentScore := sentiment |}.

(** One key of the snapshot, in the order of [Object.keys(marketData)]:
    the pair, its last price, and the results of the two [Math.random()]
    calls the loop body makes for it (the second only in the HOLD
    branch). *)
Record Entry := {
  e_pair : string;
  e_last : Q;
  e_technical : Q;
  e_hold : Q
}.

Definition generateSignals (modelLoaded : bool) (sentiments : gmap string Q)
    (entries : list Entry) : list Signal :=
  if negb modelLoaded then []
  else
    omap (fun e =>
            if truthy (e_last e) then
              Some (signalFor (e_pair e) (e_last e)
                      (SentimentAnalyzer.getSentiment sentiments (e_pair e))
                      (e_technical e) (e_hold e))
            else None)
         entries.

End MLPredictor.

Module Scheduler.

(** The values one call of [TradingEngine.executeTrade] takes from its
    environment: the slippage draw, the new id and the time. *)
Record Draw := {
  d_random : Q;
  d_id : string;
  d_now : Z
}.

(** The engine with its [isRunning] flag. *)
Record State := {
  engine : TradingEngine.Engine;
  isRunning : bool
}.

Definition initial : State :=
  {| engine := TradingEngine.initial; isRunning := false |}.

(** [start], [stop] and [toggleStatus] on the flag; the timer and the
    exchange connection they also switch are outside this record. *)
Definition start (s : State) : State :=
  {| engine := engine s; isRunning := true |}.

Definition stop (s : State) : State :=
  {| engine := engine s; isRunning := false |}.

Definition toggleStatus (s : State) : State :=
  if isRunning s then stop s else start s.

Definition tradeWith (e : TradingEngine.Engine) (d : Draw)
    (pair : string) (type : TradeType) (price amount : Q) : TradingEngine.Engine :=
  TradingEngine.executeTrade e (d_random d) (d_id d) (d_now d)
    pair type price amount.

(** The loop of [tick] over the rebalance orders; the order of index [i]
    is executed with the draws [draws i]. *)
Fixpoint executeRebalance (draws : nat -> Draw) (i : nat)
    (e : TradingEngine.Engine) (orders : list RiskManager.RebalanceTrade)
    : TradingEngine.Engine :=
  match orders with
  | [] => e
  | trade :: rest =>
      executeRebalance draws (S i)
        (tradeWith e (draws i) (RiskManager.o_pair trade)
           (RiskManager.o_action trade) (RiskManager.o_price trade)
           (RiskManager.o_amount trade))
        rest
  end.

(** The body of the loop of [tick] over the signals. *)
Definition executeSignal (e : TradingEngine.Engine)
    (signal : MLPredictor.Signal) (d : Draw) : TradingEngine.Engine :=
  match MLPredictor.action signal with
  | MLPredictor.HOLD => e
  | MLPredictor.Act side =>
      if Qlt_bool 0.85 (MLPredictor.confidence signal) then
        let tradeAmount :=
          RiskManager.calculatePositionSize (TradingEngine.riskManager e)
            (MLPredictor.pair signal) (MLPredictor.price signal) in
        if Qlt_bool 0 tradeAmount then
          tradeWith e d (MLPredictor.pair signal) side
            (MLPredictor.price signal) tradeAmount
        else e
      else e
  end.

(** Each signal comes with the draws its trade would use. *)
Definition executeSignals (e : TradingEngine.Engine)
    (signals : list (MLPredictor.Signal * Draw)) : TradingEngine.Engine :=
  foldl (fun e sd => executeSignal e sd.1 sd.2) e signals.

(** One [tick].  [marketData] is what [exchange.fetchMarketData()]
    resolved to and [signals] what [predictor.generateSignals(marketData)]
    returned; the occasional [predictor.updateSentiment()] changes only
    the predictor, and the alerts and the broadcast change nothing here.
    No step of the pipeline throws in this model, so the [catch] is not
    reached. *)
Definition tick (s : State) (marketData : gmap string Q)
    (rebalanceDraws : nat -> Draw)
    (signals : list (MLPredictor.Signal * Draw)) : State :=
  if negb (isRunning s) then s
  else
    let valued :=
      {| TradingEngine.riskManager :=
           RiskManager.updatePrices (TradingEngine.riskManager (engine s))
             marketData;
         TradingEngine.logs := TradingEngine.logs (engine s) |} in
    if RiskManager.shouldShutdown (TradingEngine.riskManager valued)
    then stop {| engine := valued; isRunning := true |}
    else
      let rebalanceTrades :=
        RiskManager.checkRebalance (TradingEngine.riskManager valued)
          marketData in
      let rebalanced := executeRebalance rebalanceDraws 0 valued rebalanceTrades in
      {| engine := executeSignals rebalanced signals; isRunning := true |}.

(** The [recentLogs] of the state [broadcastState] sends, and of the one
    [sendInitialState] sends. *)
Definition broadcastLogs (e : TradingEngine.Engine) : list TradingEngine.TradeLog :=
  sliceLast 10 (TradingEngine.getLogs e).

Definition initialStateLogs (e : TradingEngine.Engine) : list TradingEngine.TradeLog :=
  sliceLast 50 (TradingEngine.getLogs e).

End Scheduler.

Module ExchangeConnector.

Record Ticker := {
  last : Q;
  bid : Q;
  ask : Q;
  volume : Q;
  timestamp : Z
}.

(** The fields [fetchMarketData] reads of a ticker returned by
    [binance.fetchTickers]. *)
Record RawTicker := {
  r_last : Q;
  r_bid : Q;
  r_ask : Q;
  r_baseVolume : Q
}.

Record State := {
  latestData : gmap string Ticker;
  isConnected : bool
}.

Definition pairs : list string :=
  ["BTC/USDT"; "ETH/USDT"; "SOL/USDT"; "ADA/USDT"; "XRP/USDT"].

Definition initial : State := {| latestData := ∅; isConnected := false |}.

Definition volatility : Q := 0.001.

(** The loop that copies the fetched tickers; [now j] is the
    [Date.now()] read for the pair of index [j]. *)
Fixpoint copyLoop (ps : list string) (i : nat)
    (tickers : gmap string RawTicker) (now : nat -> Z)
    (data : gmap string Ticker) : gmap string Ticker :=
  match ps with
  | [] => data
  | key :: rest =>
      copyLoop rest (S i) tickers now
        match tickers !! key with
        | Some t =>
            <[key := {| last := r_last t; bid := r_bid t; ask := r_ask t;
                        volume := r_baseVolume t; timestamp := now i |}]> data
        | None => data
        end
  end.

(** The loop that simulates one tick of prices; [random j] is the
    [Math.random()] drawn for the pair of index [j]. *)
Fixpoint simulateLoop (ps : list string) (i : nat)
    (random : nat -> Q) (now : nat -> Z)
    (data : gmap string Ticker) : gmap string Ticker :=
  match ps with
  | [] => data
  | key :: rest =>
      simulateLoop rest (S i) random now
        match data !! key with
        | Some t =>
            let change := 1 + (random i * volatility * 2 - volatility) in
            let last' := last t * change in
            <[key := {| last := last'; bid := last' * 0.9995;
                        ask := last' * 1.0005; volume := volume t;
                        timestamp := now i |}]> data
        | None =>
            <[key := {| last := 50000; bid := 49950; ask := 50050;
                        volume := 100; timestamp := now i |}]> data
        end
  end.

(** [fetchMarketData]: the state after the call; the call resolves to
    its [latestData].  [coin] is the [Math.random()] that chooses between
    a real fetch and a simulated tick; [tickers] is what
    [binance.fetchTickers] resolved to, [None] when it threw (the [catch]
    then returns the cache as it is). *)
Definition fetchMarketData (s : State) (coin : Q)
    (tickers : option (gmap string RawTicker))
    (random : nat -> Q) (now : nat -> Z) : State :=
  if negb (isConnected s) then s
  else if Qlt_bool coin 0.1 then
    match tickers with
    | Some fetched =>
        {| latestData := copyLoop pairs 0 fetched now (latestData s);
           isConnected := true |}
    | None => s
    end
  else
    {| latestData := simulateLoop pairs 0 random now (latestData s);
       isConnected := true |}.

(** [connect] and [disconnect], without their alerts; [connect] ends
    with a first fetch. *)
Definition connect (s : State) (coin : Q)
    (tickers : option (gmap string RawTicker))
    (random : nat -> Q) (now : nat -> Z) : State :=
  fetchMarketData {| latestData := latestData s; isConnected := true |}
    coin tickers random now.

Definition disconnect (s : State) : State :=
  {| latestData := latestData s; isConnected := false |}.

Definition getLatestData (s : State) : gmap string Ticker := latestData s.

End ExchangeConnector.

Import RiskManager.

(** ** Sequences of calls *)

(** One call of [RiskManager.executeTrade], as data. *)
Record Trade := {
  t_pair : string;
  t_type : TradeType;
  t_price : Q;
  t_amount : Q
}.

Definition applyTrade (p : RiskManager.Portfolio) (t : Trade)
    : RiskManager.Portfolio :=
  (RiskManager.executeTrade p (t_pair t) (t_type t) (t_price t) (t_amount t)).2.

(** The portfolio after the calls [ts], made in order from [p]. *)
Definition runTrades (p : RiskManager.Portfolio) (ts : list Trade)
    : RiskManager.Portfolio :=
  fold_left applyTrade ts p.

Definition nonNegative (t : Trade) : Prop := 0 <= t_price t /\ 0 <= t_amount t.

(** ** Sequences of engine trades *)

(** One call of [TradingEngine.executeTrade], with the values its
    environment returned. *)
Record Call := {
  c_random : Q;
  c_id : string;
  c_now : Z;
  c_pair : string;
  c_type : TradeType;
  c_price : Q;
  c_amount : Q
}.

Definition applyCall (e : TradingEngine.Engine) (c : Call) : TradingEngine.Engine :=
  TradingEngine.executeTrade e (c_random c) (c_id c) (c_now c)
    (c_pair c) (c_type c) (c_price c) (c_amount c).

Definition runCalls (e : TradingEngine.Engine) (cs : list Call)
    : TradingEngine.Engine :=
  fold_left applyCall cs e.

(** Whether the risk manager accepts the trade of the call [c] in the
    engine state [e]. *)
Definition accepted (e : TradingEngine.Engine) (c : Call) : bool :=
  (executeTrade (TradingEngine.riskManager e) (c_pair c) (c_type c)
     (TradingEngine.executedPrice (c_type c) (c_price c) (c_random c))
     (c_amount c)).1.

(** ** The rebalance plan, in the words of the specification *)

(** The value of the position held on [pair] at [price]; 0 if unheld. *)
Definition valueAt (p : Portfolio) (pair : string) (price : Q) : Q :=
  match positions p !! pair with
  | Some pos => amount pos * price
  | None => 0
  end.

(** [o] is an order the plan must hold: it comes from a target pair with
    a known price whose deviation exceeds 5%, and is the SELL of the
    excess, or the BUY of the deficit when the balance covers it. *)
Definition planned (p : Portfolio) (marketData : gmap string Q)
    (o : RebalanceTrade) : Prop :=
  exists pair targetPct price,
    (pair, targetPct) ∈ targetAllocations p /\
    lastPrice marketData pair = Some price /\
    let equity := currentEquity p marketData in
    let targetValue := equity * targetPct in
    let currentValue := valueAt p pair price in
    0.05 < Qabs (currentValue - targetValue) / equity /\
    ((targetValue < currentValue /\
      o = {| o_pair := pair; o_action := SELL;
             o_amount := (currentValue - targetValue) / price;
             o_price := price |}) \/
     (currentValue <= targetValue /\
      targetValue - currentValue <= balance p /\
      o = {| o_pair := pair; o_action := BUY;
             o_amount := (targetValue - currentValue) / price;
             o_price := price |})).

(** ** Reachable portfolios *)

(** One mutation of the portfolio: a call of [executeTrade] or a call of
    [updatePrices] with a market snapshot. *)
Inductive Op :=
| OpTrade (t : Trade)
| OpPrices (marketData : gmap string Q).

Definition applyOp (p : Portfolio) (op : Op) : Portfolio :=
  match op with
  | OpTrade t => applyTrade p t
  | OpPrices marketData => updatePrices p marketData
  end.

Definition runOps (p : Portfolio) (ops : list Op) : Portfolio :=
  fold_left applyOp ops p.

(** No last price of the snapshot is negative. *)
Definition nonNegPrices (marketData : gmap string Q) : Prop :=
  map_Forall (fun _ l => 0 <= l) marketData.

(** The calls the engine makes: prices and amounts are not negative. *)
Definition validOp (op : Op) : Prop :=
  match op with
  | OpTrade t => nonNegative t
  | OpPrices marketData => nonNegPrices marketData
  end.

(** What every reachable portfolio satisfies. *)
Definition ledgerInv (p : Portfolio) : Prop :=
  0 <= balance p /\
  map_Forall (fun _ pos => 0 <= amount pos) (positions p) /\
  0 < initialBalance p /\
  0 <= drawdown p /\ drawdown p <= 1.

(** ** Valuation, as a sum *)

Definition sumQ (l : list Q) : Q := foldr Qplus 0 l.

(** What one held position adds to the equity in [updatePrices]. *)
Definition pricedValue (marketData : gmap string Q) (e : string * Position) : Q :=
  match lastPrice marketData e.1 with
  | Some currentPrice => amount e.2 * currentPrice
  | None => 0
  end.



(** ** BUY fills on one pair *)

(** Whether the call [t], made on the portfolio [p], is a BUY on [pair]
    that succeeds. *)
Definition isFill (pair : string) (p : Portfolio) (t : Trade) : bool :=
  bool_decide (t_pair t = pair) &&
  match t_type t with BUY => true | SELL => false end &&
  (executeTrade p (t_pair t) (t_type t) (t_price t) (t_amount t)).1.

(** The fills [(price, amount)] on [pair] among the calls [ts] made in
    order from [p]: the BUY calls on [pair] that succeed. *)
Fixpoint fillsOf (pair : string) (p : Portfolio) (ts : list Trade)
    : list (Q * Q) :=
  match ts with
  | [] => []
  | t :: rest =>
      (if isFill pair p t then [(t_price t, t_amount t)] else [])
      ++ fillsOf pair (applyTrade p t) rest
  end.

(** Sum of price times amount, and sum of the amounts, over the fills. *)
Definition totalCost (fills : list (Q * Q)) : Q :=
  sumQ ((fun fill => fill.1 * fill.2) <$> fills).

Definition totalAmount (fills : list (Q * Q)) : Q :=
  sumQ (snd <$> fills).

(** No call on [pair] is a SELL, and the BUY calls on it have a positive
    amount; calls on other pairs are free. *)
Definition buysOn (pair : string) (t : Trade) : Prop :=
  t_pair t = pair -> t_type t = BUY /\ 0 < t_amount t.

(** ** Fills of amount zero *)

Definition applyTradeNF (l : NonFinite.Ledger) (t : Trade) : NonFinite.Ledger :=
  (NonFinite.executeTrade l (t_pair t) (t_type t) (t_price t) (t_amount t)).2.

Definition runTradesNF (l : NonFinite.Ledger) (ts : list Trade)
    : NonFinite.Ledger :=
  fold_left applyTradeNF ts l.

(** The portfolio [p] and the ledger [l] hold the same balance and the
    same amounts, and the same average entry price wherever the ledger's
    is a finite number. *)
Definition agree (p : Portfolio) (l : NonFinite.Ledger) : Prop :=
  balance p = NonFinite.balance l /\
  forall pair,
    match positions p !! pair, NonFinite.positions l !! pair with
    | None, None => True
    | Some pos, Some posNF =>
        amount pos = NonFinite.amount posNF /\
        (forall v, NonFinite.avgEntryPrice posNF = Some v ->
                   avgEntryPrice pos = v)
    | _, _ => False
    end.

(** The ledger's position on [pair], if any, has a positive amount and
    an average entry price that is a finite number. *)
Definition heldFinite (pair : string) (l : NonFinite.Ledger) : Prop :=
  match NonFinite.positions l !! pair with
  | Some posNF =>
      0 < NonFinite.amount posNF /\ is_Some (NonFinite.avgEntryPrice posNF)
  | None => True
  end.

(** A BUY fill of amount 0 at 50000, then a fill of 1 at 50000. *)
Definition zeroBuy : Trade :=
  {| t_pair := "BTC/USDT"; t_type := BUY; t_price := 50000; t_amount := 0 |}.

Definition zeroThenOne : list Trade :=
  [ zeroBuy;
    {| t_pair := "BTC/USDT"; t_type := BUY; t_price := 50000; t_amount := 1 |} ].

(** ** Dust *)

(** The epsilon of the SELL branch. *)
Definition epsilon : Q := 0.000001.

(** Every present position holds more than [epsilon]. *)
Definition dustFree (p : Portfolio) : Prop :=
  map_Forall (fun _ pos => epsilon < amount pos) (positions p).

Definition buysAboveEpsilon (t : Trade) : Prop :=
  t_type t = BUY -> epsilon < t_amount t.

(** ** Sample data *)

Definition buyBTC : Trade :=
  {| t_pair := "BTC/USDT"; t_type := BUY; t_price := 50000; t_amount := 1 |}.

(** The portfolio after one BUY of 1 BTC/USDT at 50000. *)
Definition holdingBTC : Portfolio := runTrades initial [buyBTC].

Definition sampleTrades : list Trade :=
  [ buyBTC;
    {| t_pair := "BTC/USDT"; t_type := BUY; t_price := 60000; t_amount := 1 |};
    {| t_pair := "ETH/USDT"; t_type := SELL; t_price := 3000; t_amount := 2 |};
    {| t_pair := "BTC/USDT"; t_type := SELL; t_price := 55000; t_amount := 0.5 |} ].

(** A BUY of a tenth of [epsilon] at price 1. *)
Definition dustBuy : Trade :=
  {| t_pair := "BTC/USDT"; t_type := BUY; t_price := 1; t_amount := 0.0000001 |}.

(** The engine buys 1 BTC/USDT at 50000, then sells it all at 60000,
    both times with no slippage. *)
Definition openCall : Call :=
  {| c_random := 0; c_id := "a1"; c_now := 1; c_pair := "BTC/USDT";
     c_type := BUY; c_price := 50000; c_amount := 1 |}.

Definition closeCall : Call :=
  {| c_random := 0; c_id := "b2"; c_now := 2; c_pair := "BTC/USDT";
     c_type := SELL; c_price := 60000; c_amount := 1 |}.

(** The scenario of the specification: all 100000 in cash, BTC/USDT
    quoted at 50000 with a target of 30%. *)
Definition sampleSnapshot : gmap string Q := <["BTC/USDT" := 50000]> ∅.

Definition sampleOrder : RebalanceTrade :=
  {| o_pair := "BTC/USDT"; o_action := BUY;
     o_amount := (100000 * 0.30 - 0) / 50000; o_price := 50000 |}.

(** The second scenario of the specification: equity 100000 of which
    20000 is BTC/USDT (0.4 at 50000), for a target of 30%. *)
Definition underweightBTC : Portfolio :=
  {| balance := 80000;
     initialBalance := 100000;
     positions := <["BTC/USDT" := {| amount := 0.4; avgEntryPrice := 50000 |}]> ∅;
     pnl := 0; drawdown := 0; maxDrawdown := 0;
     winRate := 0; sharpeRatio := 1.5;
     totalTrades := 0; winningTrades := 0;
     targetAllocations := targetAllocations initial |}.

(** The same two calls with any slippage draws. *)
Definition openWith (random : Q) : Call :=
  {| c_random := random; c_id := "a1"; c_now := 1; c_pair := "BTC/USDT";
     c_type := BUY; c_price := 50000; c_amount := 1 |}.

Definition closeWith (random : Q) : Call :=
  {| c_random := random; c_id := "b2"; c_now := 2; c_pair := "BTC/USDT";
     c_type := SELL; c_price := 60000; c_amount := 1 |}.

Definition secondBuy : Call :=
  {| c_random := 0; c_id := "c3"; c_now := 3; c_pair := "BTC/USDT";
     c_type := BUY; c_price := 60000; c_amount := 1 |}.

(** Two fills on BTC/USDT, around a BUY on another pair and a BUY the
    balance cannot pay. *)
Definition sampleBuys : list Trade :=
  [ buyBTC;
    {| t_pair := "ETH/USDT"; t_type := BUY; t_price := 3000; t_amount := 2 |};
    {| t_pair := "BTC/USDT"; t_type := BUY; t_price := 70000; t_amount := 1 |};
    {| t_pair := "BTC/USDT"; t_type := BUY; t_price := 40000; t_amount := 0.5 |} ].

Definition sampleOps : list Op :=
  [ OpTrade buyBTC;
    OpPrices (<["BTC/USDT" := 45000]> ∅);
    OpTrade {| t_pair := "BTC/USDT"; t_type := SELL;
               t_price := 45000; t_amount := 0.5 |};
    OpPrices (<["BTC/USDT" := 52000]> ∅) ].

(** ** Sequences of alerts *)

(** One call of [AlertManager.sendAlert], with the values its environment
    returned. *)
Record Send := {
  s_id : string;
  s_now : Z;
  s_type : AlertManager.AlertType;
  s_message : string;
  s_severity : option AlertManager.Severity
}.

Definition applySend (alerts : list AlertManager.Alert) (c : Send)
    : list AlertManager.Alert :=
  AlertManager.sendAlert alerts (s_id c) (s_now c) (s_type c) (s_message c)
    (s_severity c).

(** The alert a call stores. *)
Definition alertOf (c : Send) : AlertManager.Alert :=
  {| AlertManager.id := s_id c;
     AlertManager.timestamp := s_now c;
     AlertManager.type := s_type c;
     AlertManager.message := s_message c;
     AlertManager.severity := default AlertManager.INFO (s_severity c) |}.

(** ** The history of the trade log *)

(** The entry [TradingEngine.executeTrade] builds for the call [c] in the
    engine state [e]. *)
Definition entryOf (e : TradingEngine.Engine) (c : Call) : TradingEngine.TradeLog :=
  let executed := TradingEngine.executedPrice (c_type c) (c_price c) (c_random c) in
  let r := executeTrade (TradingEngine.riskManager e) (c_pair c) (c_type c)
             executed (c_amount c) in
  {| TradingEngine.id := c_id c;
     TradingEngine.timestamp := c_now c;
     TradingEngine.pair := c_pair c;
     TradingEngine.type := c_type c;
     TradingEngine.price := executed;
     TradingEngine.amount := c_amount c;
     TradingEngine.status :=
       if r.1 then TradingEngine.EXECUTED else TradingEngine.FAILED;
     TradingEngine.pnl :=
       if r.1 then
         match c_type c with
         | SELL => Some (calculateTradePnL r.2 (c_pair c) executed (c_amount c))
         | BUY => None
         end
       else None |}.

(** Every entry built by the calls [cs] made in order from [e], with no
    cap. *)
Fixpoint history (e : TradingEngine.Engine) (cs : list Call)
    : list TradingEngine.TradeLog :=
  match cs with
  | [] => []
  | c :: rest => entryOf e c :: history (applyCall e c) rest
  end.

(** ** Ticks *)

(** What one tick takes from outside the engine. *)
Record TickInput := {
  ti_marketData : gmap string Q;
  ti_rebalanceDraws : nat -> Scheduler.Draw;
  ti_signals : list (MLPredictor.Signal * Scheduler.Draw)
}.

Definition applyTick (s : Scheduler.State) (i : TickInput) : Scheduler.State :=
  Scheduler.tick s (ti_marketData i) (ti_rebalanceDraws i) (ti_signals i).

Definition runTicks (s : Scheduler.State) (inputs : list TickInput)
    : Scheduler.State :=
  fold_left applyTick inputs s.

(** A slippage draw lies in [0, 1]. *)
Definition validDraw (d : Scheduler.Draw) : Prop :=
  0 <= Scheduler.d_random d /\ Scheduler.d_random d <= 1.

(** The inputs the engine gets from its collaborators: no negative last
    price, signals at a positive price, slippage draws in [0, 1]. *)
Definition validTick (i : TickInput) : Prop :=
  nonNegPrices (ti_marketData i) /\
  (forall k, validDraw (ti_rebalanceDraws i k)) /\
  Forall (fun sd => 0 < MLPredictor.price sd.1 /\ validDraw sd.2) (ti_signals i).

(** A trade made by [tick] is a call of [executeTrade] with the draws as
    environment. *)
Definition callOf (d : Scheduler.Draw) (pair : string) (type : TradeType)
    (price amt : Q) : Call :=
  {| c_random := Scheduler.d_random d; c_id := Scheduler.d_id d;
     c_now := Scheduler.d_now d; c_pair := pair; c_type := type;
     c_price := price; c_amount := amt |}.

(** What [tick] keeps of the engine between and across calls. *)
Definition engineInv (e : TradingEngine.Engine) : Prop :=
  ledgerInv (TradingEngine.riskManager e) /\
  (length (TradingEngine.logs e) <= 1000)%nat.

(** A snapshot at which [holdingBTC] has lost 20% of its initial
    balance. *)
Definition crashSnapshot : gmap string Q := <["BTC/USDT" := 30000]> ∅.

Definition runningHoldingBTC : Scheduler.State :=
  {| Scheduler.engine :=
       {| TradingEngine.riskManager := holdingBTC; TradingEngine.logs := [] |};
     Scheduler.isRunning := true |}.

Definition sampleDraw : Scheduler.Draw :=
  {| Scheduler.d_random := 0.5; Scheduler.d_id := "d0"; Scheduler.d_now := 7 |}.

Definition buySignal : MLPredictor.Signal :=
  MLPredictor.signalFor "BTC/USDT" 50000 0 0.95 0.

Definition sampleTick : TickInput :=
  {| ti_marketData := sampleSnapshot;
     ti_rebalanceDraws := fun _ => sampleDraw;
     ti_signals := [(buySignal, sampleDraw)] |}.

(** ** Sentiment *)

(** The sentiments after the constructor and the calls of
    [fetchSentiment] that drew [draws], one stream of draws per call. *)
Definition runFetches (draws : list (nat -> Q)) : gmap string Q :=
  fold_left SentimentAnalyzer.fetchSentiment draws SentimentAnalyzer.initial.

(** The clamp of [fetchSentiment]: [Math.max(-1, Math.min(1, x))]. *)
Definition clamp (x : Q) : Q := Math_max (-1) (Math_min 1 x).

Definition sentimentInv (sentiments : gmap string Q) : Prop :=
  map_Forall (fun _ v => -1 <= v /\ v <= 1) sentiments /\
  Forall (fun pair => is_Some (sentiments !! pair)) SentimentAnalyzer.pairs.

Definition sampleFetches : list (nat -> Q) :=
  [fun _ => 0.9; fun i => if Nat.even i then 1 else 0; fun _ => 0.25].

(** ** Market data *)

(** What one call of [fetchMarketData] takes from its environment. *)
Record Fetch := {
  f_coin : Q;
  f_tickers : option (gmap string ExchangeConnector.RawTicker);
  f_random : nat -> Q;
  f_now : nat -> Z
}.

Definition applyFetch (s : ExchangeConnector.State) (f : Fetch)
    : ExchangeConnector.State :=
  ExchangeConnector.fetchMarketData s (f_coin f) (f_tickers f) (f_random f)
    (f_now f).

(** The snapshot the risk manager reads off the exchange's data: the
    last price of each pair. *)
Definition snapshotOf (data : gmap string ExchangeConnector.Ticker)
    : gmap string Q :=
  ExchangeConnector.last <$> data.

(** The draws lie in [0, 1] and the exchange quotes positive last
    prices. *)
Definition validFetch (f : Fetch) : Prop :=
  (forall i, 0 <= f_random f i /\ f_random f i <= 1) /\
  match f_tickers f with
  | Some fetched =>
      map_Forall (fun _ t => 0 < ExchangeConnector.r_last t) fetched
  | None => True
  end.

(** One call on the exchange connector. *)
Inductive ExchangeOp :=
| ExConnect (f : Fetch)
| ExDisconnect
| ExFetch (f : Fetch).

Definition applyExchangeOp (s : ExchangeConnector.State) (op : ExchangeOp)
    : ExchangeConnector.State :=
  match op with
  | ExConnect f =>
      ExchangeConnector.connect s (f_coin f) (f_tickers f) (f_random f) (f_now f)
  | ExDisconnect => ExchangeConnector.disconnect s
  | ExFetch f => applyFetch s f
  end.

Definition validExchangeOp (op : ExchangeOp) : Prop :=
  match op with
  | ExConnect f | ExFetch f => validFetch f
  | ExDisconnect => True
  end.

Definition positiveLasts (data : gmap string ExchangeConnector.Ticker) : Prop :=
  map_Forall (fun _ t => 0 < ExchangeConnector.last t) data.

Definition simulatedFetch (random : Q) : Fetch :=
  {| f_coin := 0.5; f_tickers := None;
     f_random := fun _ => random; f_now := fun i => Z.of_nat i |}.

Definition realFetch : Fetch :=
  {| f_coin := 0.05;
     f_tickers :=
       Some (<["BTC/USDT" := {| ExchangeConnector.r_last := 64000;
                                ExchangeConnector.r_bid := 63990;
                                ExchangeConnector.r_ask := 64010;
                                ExchangeConnector.r_baseVolume := 1200 |}]> ∅);
     f_random := fun _ => 0; f_now := fun i => Z.of_nat i |}.

Definition sampleExchangeOps : list ExchangeOp :=
  [ ExConnect (simulatedFetch 0.2); ExFetch realFetch;
    ExFetch (simulatedFetch 1); ExDisconnect; ExFetch (simulatedFetch 0) ].

Definition connected : ExchangeConnector.State :=
  {| ExchangeConnector.latestData := ∅; ExchangeConnector.isConnected := true |}.

(** ** Marking to market *)

(** The price [updatePrices] values a pair at: its truthy last price, or
    nothing. *)
Definition mark (marketData : gmap string Q) (pair : string) : Q :=
  default 0 (lastPrice marketData pair).

(** The value [updatePrices] gives to the held positions. *)
Definition heldValue (marketData : gmap string Q)
    (held : gmap string Position) : Q :=
  sumQ (pricedValue marketData <$> map_to_list held).

(** The amount a successful SELL writes off when it deletes a position
    it leaves at or below epsilon. *)
Definition writtenOff (pos : Position) (amt : Q) : Q :=
  if Qle_bool (amount pos - amt) epsilon then amount pos - amt else 0.

(** ** Generated signals *)

(** The HOLD draw of a snapshot entry lies in [0, 1). *)
Definition validEntry (e : MLPredictor.Entry) : Prop :=
  0 <= MLPredictor.e_hold e /\ MLPredictor.e_hold e < 1.

(** What the [Signal] interface promises of its fields. *)
Definition wellFormedSignal (signal : MLPredictor.Signal) : Prop :=
  0 <= MLPredictor.confidence signal /\ MLPredictor.confidence signal <= 1 /\
  -1 <= MLPredictor.sentimentScore signal /\
  MLPredictor.sentimentScore signal <= 1 /\
  ~ MLPredictor.price signal == 0.

Definition sampleEntries : list MLPredictor.Entry :=
  [ {| MLPredictor.e_pair := "BTC/USDT"; MLPredictor.e_last := 50000;
       MLPredictor.e_technical := 0.95; MLPredictor.e_hold := 0.1 |};
    {| MLPredictor.e_pair := "ETH/USDT"; MLPredictor.e_last := 0;
       MLPredictor.e_technical := 0.5; MLPredictor.e_hold := 0.2 |};
    {| MLPredictor.e_pair := "SOL/USDT"; MLPredictor.e_last := 150;
       MLPredictor.e_technical := 0.5; MLPredictor.e_hold := 0.99 |} ].

(** ** Position sizing *)

(** The diversification test of [calculatePositionSize]: at least
    [minPairs] pairs are held and [pair] is not one of them. *)
Definition throttled (p : Portfolio) (pair : string) : Prop :=
  (minPairs <= size (positions p))%nat /\ positions p !! pair = None.

(** A portfolio holding five pairs, none of them DOGE/USDT. *)
Definition fivePairs : Portfolio :=
  {| balance := 20000;
     initialBalance := 100000;
     positions :=
       list_to_map
         ((fun pair => (pair, {| amount := 1; avgEntryPrice := 100 |})) <$>
          ["BTC/USDT"; "ETH/USDT"; "SOL/USDT"; "ADA/USDT"; "XRP/USDT"]);
     pnl := 0; drawdown := 0; maxDrawdown := 0;
     winRate := 0; sharpeRatio := 1.5;
     totalTrades := 0; winningTrades := 0;
     targetAllocations := targetAllocations initial |}.

(** ** Trade statistics *)

(** The statistics fields agree with the counters: before the first
    successful SELL they have their initial values, afterwards [winRate]
    is the percentage of winning trades and [sharpeRatio] is derived from
    it. *)
Definition statsInv (p : Portfolio) : Prop :=
  (winningTrades p <= totalTrades p)%nat /\
  match totalTrades p with
  | O => winRate p = 0 /\ sharpeRatio p = 1.5
  | S _ =>
      winRate p = of_nat (winningTrades p) / of_nat (totalTrades p) * 100 /\
      sharpeRatio p = 1.5 + (winRate p - 50) * 0.05
  end.

(** The number of calls in [ts] that are SELLs the risk manager accepts. *)
Fixpoint acceptedSells (p : Portfolio) (ts : list Trade) : nat :=
  match ts with
  | [] => O
  | t :: rest =>
      (match t_type t with
       | SELL =>
           if (executeTrade p (t_pair t) SELL (t_price t) (t_amount t)).1
           then 1 else 0
       | BUY => 0
       end + acceptedSells (applyTrade p t) rest)%nat
  end.

(** ** Rebalance orders *)

Definition nonNegTargets (p : Portfolio) : Prop :=
  Forall (fun entry => 0 <= entry.2) (targetAllocations p).

(** The order planned for [underweightBTC] at [sampleSnapshot]. *)
Definition underweightOrder : RebalanceTrade :=
  {| o_pair := "BTC/USDT"; o_action := BUY;
     o_amount := ((80000 + 0.4 * 50000) * 0.30 - 0.4 * 50000) / 50000;
     o_price := 50000 |}.

(** ** Comparisons *)

Lemma Qlt_bool_true (a b : Q) : Qlt_bool a b = true <-> a < b.
Proof.
  unfold Qlt_bool. rewrite negb_true_iff, <- not_true_iff_false, Qle_bool_iff.
  split; [apply Qnot_le_lt | apply Qlt_not_le].
Qed.

Lemma Qlt_bool_false (a b : Q) : Qlt_bool a b = false <-> b <= a.
Proof.
  unfold Qlt_bool. rewrite negb_false_iff. apply Qle_bool_iff.
Qed.

Lemma Qle_bool_false (a b : Q) : Qle_bool a b = false <-> b < a.
Proof.
  rewrite <- not_true_iff_false, Qle_bool_iff.
  split; [apply Qnot_le_lt | apply Qlt_not_le].
Qed.

(** Case analysis on a comparison of the source, leaving the order fact
    in the context. *)
Ltac case_lt a b H :=
  destruct (Qlt_bool a b) eqn:H;
  [apply Qlt_bool_true in H | apply Qlt_bool_false in H].

Ltac case_le a b H :=
  destruct (Qle_bool a b) eqn:H;
  [apply Qle_bool_iff in H | apply Qle_bool_false in H].

(** ** Balance *)

Lemma executeTrade_balance_nonneg p pair type price amt :
  0 <= price -> 0 <= amt -> 0 <= balance p ->
  0 <= balance (executeTrade p pair type price amt).2.
Proof.
  intros Hp Ha Hb. unfold executeTrade. destruct type.
  - case_lt (balance p) (price * amt) H; simpl; lra.
  - destruct (positions p !! pair) as [pos|]; [|exact Hb].
    case_lt (amount pos) amt H; simpl; nra.
Qed.

Lemma runTrades_balance_nonneg ts : forall p,
  Forall nonNegative ts -> 0 <= balance p -> 0 <= balance (runTrades p ts).
Proof.
  induction ts as [|t ts IH]; intros p Hts Hb; [exact Hb|].
  inversion Hts as [|? ? [Hp Ha] Hrest]; subst. simpl.
  apply IH; [exact Hrest|]. now apply executeTrade_balance_nonneg.
Qed.

Lemma initial_balance_nonneg : 0 <= balance initial.
Proof. simpl. lra. Qed.

(** C1.  Starting from the initial portfolio, after every call of a
    sequence of [executeTrade] calls with non-negative prices and amounts
    (any side, any pair), the balance is not negative: the property holds
    after each prefix [take n ts] of the sequence. *)
Theorem C1_balance_never_negative (ts : list Trade) (n : nat) :
  Forall nonNegative ts ->
  0 <= balance (runTrades initial (take n ts)).
Proof.
  intros Hts. apply runTrades_balance_nonneg.
  - now apply Forall_take.
  - apply initial_balance_nonneg.
Qed.

Lemma C1_witness :
  Forall nonNegative sampleTrades /\
  0 <= balance (runTrades initial (take 4 sampleTrades)).
Proof.
  split.
  - repeat constructor; vm_compute; discriminate.
  - apply (C1_balance_never_negative sampleTrades 4).
    repeat constructor; vm_compute; discriminate.
Defined.

(** ** Failure of a trade *)

Lemma failed_trade_unchanged p (pair : string) (price amt : Q) type :
  (executeTrade p pair type price amt).1 = false ->
  (executeTrade p pair type price amt).2 = p.
Proof.
  unfold executeTrade. destruct type.
  - destruct (Qlt_bool (balance p) (price * amt)); simpl; [reflexivity | discriminate].
  - destruct (positions p !! pair) as [pos|]; simpl; [|reflexivity].
    destruct (Qlt_bool (amount pos) amt); simpl; [reflexivity | discriminate].
Qed.

(** C2.  A BUY fails exactly when [balance < price * amount]; a SELL
    fails exactly when the pair has no position or the position holds
    less than the requested amount; a failed call returns the portfolio
    it was given, every field unchanged. *)
Theorem C2_failure_iff_and_unchanged p (pair : string) (price amt : Q) :
  ((executeTrade p pair BUY price amt).1 = false <-> balance p < price * amt) /\
  ((executeTrade p pair SELL price amt).1 = false <->
     (positions p !! pair = None \/
      exists pos, positions p !! pair = Some pos /\ amount pos < amt)) /\
  (forall type, (executeTrade p pair type price amt).1 = false ->
                (executeTrade p pair type price amt).2 = p).
Proof.
  split; [|split].
  - unfold executeTrade. case_lt (balance p) (price * amt) H; simpl.
    + tauto.
    + split; [discriminate | intros Hlt; lra].
  - unfold executeTrade. destruct (positions p !! pair) as [pos|]; simpl.
    + case_lt (amount pos) amt H; simpl.
      * split; [|reflexivity]. intros _. right. exists pos. split; [reflexivity | exact H].
      * split; [discriminate|]. intros [Hn | (pos' & Heq & Hlt)]; [discriminate|].
        injection Heq as <-. lra.
    + split; [|reflexivity]. intros _. now left.
  - intros type. apply failed_trade_unchanged.
Qed.

(** ** Valuation *)

Lemma foldr_valuation md (b : Q) (l : list (string * Position)) :
  foldr (uncurry (fun pair position acc =>
           match lastPrice md pair with
           | Some currentPrice => acc + amount position * currentPrice
           | None => acc
           end)) b l
  == b + sumQ (pricedValue md <$> l).
Proof.
  induction l as [|[k pos] l IH]; simpl.
  - lra.
  - unfold pricedValue at 1. simpl.
    destruct (lastPrice md k); rewrite IH; unfold fmap; lra.
Qed.

Lemma currentEquity_sum p md :
  currentEquity p md
  == balance p + sumQ (pricedValue md <$> map_to_list (positions p)).
Proof.
  unfold currentEquity. rewrite map_fold_foldr. apply foldr_valuation.
Qed.

Lemma Math_max_spec (a b : Q) :
  a <= Math_max a b /\ b <= Math_max a b /\
  (Math_max a b = a \/ Math_max a b = b).
Proof.
  unfold Math_max. case_lt a b H.
  - split; [lra|]. split; [lra|]. now right.
  - split; [lra|]. split; [lra|]. now left.
Qed.



(** ** Positions and the epsilon *)

Lemma applyTrade_dustFree p t :
  dustFree p -> buysAboveEpsilon t -> dustFree (applyTrade p t).
Proof.
  intros Hp Ht. destruct t as [pair [] price amt];
    unfold applyTrade, executeTrade, buysAboveEpsilon, dustFree in *; simpl in *.
  - specialize (Ht eq_refl).
    case_lt (balance p) (price * amt) H; simpl; [exact Hp|].
    apply map_Forall_insert_2; [|exact Hp]. simpl.
    destruct (positions p !! pair) as [pos|] eqn:Hpos; simpl.
    + apply Hp in Hpos. unfold epsilon in *. lra.
    + unfold epsilon in *. lra.
  - destruct (positions p !! pair) as [pos|] eqn:Hpos; [|exact Hp].
    case_lt (amount pos) amt H; simpl; [exact Hp|].
    case_le (amount pos - amt) 0.000001 Heps.
    + now apply map_Forall_delete.
    + apply map_Forall_insert_2; [exact Heps | exact Hp].
Qed.

Lemma runTrades_dustFree ts : forall p,
  dustFree p -> Forall buysAboveEpsilon ts -> dustFree (runTrades p ts).
Proof.
  induction ts as [|t ts IH]; intros p Hp Hts; [exact Hp|].
  inversion Hts; subst. simpl. apply IH; [|assumption].
  now apply applyTrade_dustFree.
Qed.

(** C5, as stated, fails.  From the initial portfolio a BUY of 0.0000001
    BTC/USDT at price 1 succeeds and leaves the pair in the positions map
    with an amount at or below 0.000001: the BUY branch never removes an
    entry. *)
Lemma C5_counterexample :
  exists pos,
    positions (runTrades initial [dustBuy]) !! "BTC/USDT" = Some pos /\
    amount pos <= epsilon.
Proof.
  eexists. split; [vm_compute; reflexivity | vm_compute; discriminate].
Qed.

(** C5, amended.  In a sequence of [executeTrade] calls from the initial
    portfolio in which every BUY has an amount above 1e-6, after every
    call each pair present in the positions map has an amount strictly
    greater than 1e-6; a successful SELL that leaves the position at or
    below 1e-6 removes the pair from the map, while one that leaves more
    keeps it with the reduced amount; and the BUY branch never removes an
    entry: every pair present before a BUY call, accepted or not, is
    present after it. *)
Theorem C5_positions_above_epsilon (ts : list Trade) (n : nat) :
  Forall buysAboveEpsilon ts ->
  dustFree (runTrades initial (take n ts)) /\
  (forall p pair price amt pos,
     positions p !! pair = Some pos -> amt <= amount pos ->
     positions (executeTrade p pair SELL price amt).2 !! pair =
       if Qle_bool (amount pos - amt) epsilon then None
       else Some {| amount := amount pos - amt;
                    avgEntryPrice := avgEntryPrice pos |}) /\
  (forall p pair price amt key,
     is_Some (positions p !! key) ->
     is_Some (positions (executeTrade p pair BUY price amt).2 !! key)).
Proof.
  intros Hts. split; [|split].
  - apply runTrades_dustFree; [apply map_Forall_empty | now apply Forall_take].
  - intros p pair price amt pos Hpos Hle. unfold executeTrade. rewrite Hpos.
    case_lt (amount pos) amt H; [lra|]. simpl. unfold epsilon.
    destruct (Qle_bool (amount pos - amt) 0.000001).
    + apply lookup_delete_eq.
    + apply lookup_insert_eq.
  - intros p pair price amt key Hkey. unfold executeTrade.
    destruct (Qlt_bool (balance p) (price * amt)); cbn [snd positions];
      [exact Hkey|].
    rewrite lookup_insert_is_Some. destruct (decide (pair = key)); auto.
Qed.

Lemma C5_witness :
  Forall buysAboveEpsilon sampleTrades /\
  dustFree (runTrades initial (take 4 sampleTrades)).
Proof.
  split.
  - repeat constructor; intros _; vm_compute; reflexivity.
  - apply (C5_positions_above_epsilon sampleTrades 4).
    repeat constructor; intros _; vm_compute; reflexivity.
Defined.

(** ** Frame of a trade *)

(** C10.  A successful SELL does not change the position's
    [avgEntryPrice]: if the pair is still present after the call, its
    entry has the average entry price it had before and the amount
    reduced by the amount sold.  No call of [executeTrade], of either
    side, successful or not, changes [initialBalance] or
    [targetAllocations]. *)
Theorem C10_sell_keeps_avgEntryPrice p (pair : string) (price amt : Q) :
  (forall pos',
     (executeTrade p pair SELL price amt).1 = true ->
     positions (executeTrade p pair SELL price amt).2 !! pair = Some pos' ->
     exists pos,
       positions p !! pair = Some pos /\
       avgEntryPrice pos' = avgEntryPrice pos /\
       amount pos' = amount pos - amt) /\
  (forall type,
     initialBalance (executeTrade p pair type price amt).2 = initialBalance p /\
     targetAllocations (executeTrade p pair type price amt).2
       = targetAllocations p).
Proof.
  split.
  - intros pos'. unfold executeTrade.
    destruct (positions p !! pair) as [pos|] eqn:Hpos; [|discriminate].
    case_lt (amount pos) amt H; [discriminate|]. simpl. intros _.
    destruct (Qle_bool (amount pos - amt) 0.000001).
    + rewrite lookup_delete_eq. discriminate.
    + rewrite lookup_insert_eq. intros [= <-]. exists pos. auto.
  - intros type. unfold executeTrade. destruct type.
    + destruct (Qlt_bool (balance p) (price * amt)); auto.
    + destruct (positions p !! pair) as [pos|]; auto.
      destruct (Qlt_bool (amount pos) amt); auto.
Qed.

(** ** Fills of amount zero *)

(** The two embeddings of [executeTrade] accept the same calls and stay
    in agreement: they differ only where a quotient has divisor 0. *)
Lemma agree_executeTrade p l (pair : string) type (price amt : Q) :
  agree p l ->
  (executeTrade p pair type price amt).1
    = (NonFinite.executeTrade l pair type price amt).1 /\
  agree (executeTrade p pair type price amt).2
        (NonFinite.executeTrade l pair type price amt).2.
Proof.
  intros [Hb Hpos]. unfold executeTrade, NonFinite.executeTrade.
  rewrite <- Hb. pose proof (Hpos pair) as Hpair.
  destruct type.
  - destruct (Qlt_bool (balance p) (price * amt)); [now split|].
    split; [reflexivity|]. split; [cbn; now rewrite Hb|].
    intros key. cbn [snd positions NonFinite.positions].
    destruct (decide (pair = key)) as [<-|Hne].
    + rewrite !lookup_insert_eq.
      destruct (positions p !! pair) as [pos|],
               (NonFinite.positions l !! pair) as [posNF|];
        try contradiction; cbn [default amount avgEntryPrice
          NonFinite.amount NonFinite.avgEntryPrice]; unfold id.
      * destruct Hpair as [Ha Hv]. rewrite <- Ha. split; [reflexivity|].
        intros v. destruct (NonFinite.avgEntryPrice posNF) as [w|];
          [|discriminate].
        rewrite (Hv w eq_refl). cbn. destruct (truthy _); [|discriminate].
        now intros [= <-].
      * split; [reflexivity|]. intros v. cbn.
        destruct (truthy _); [|discriminate]. now intros [= <-].
    + rewrite !lookup_insert_ne by exact Hne. apply Hpos.
  - destruct (positions p !! pair) as [pos|] eqn:Ep,
             (NonFinite.positions l !! pair) as [posNF|] eqn:El;
      try contradiction; [|now split].
    destruct Hpair as [Ha Hv]. rewrite <- Ha.
    destruct (Qlt_bool (amount pos) amt); [now split|].
    split; [reflexivity|]. split; [cbn; now rewrite Hb|].
    intros key. cbn [snd positions NonFinite.positions].
    destruct (Qle_bool (amount pos - amt) 0.000001).
    + destruct (decide (pair = key)) as [<-|Hne].
      * now rewrite !lookup_delete_eq.
      * rewrite !lookup_delete_ne by exact Hne. apply Hpos.
    + destruct (decide (pair = key)) as [<-|Hne].
      * rewrite !lookup_insert_eq. split; [reflexivity | exact Hv].
      * rewrite !lookup_insert_ne by exact Hne. apply Hpos.
Qed.

(** Once the average entry price of a pair is not a finite number, no
    BUY on the pair makes it one again. *)
Lemma not_finite_persists l (pair : string) (price amt : Q) posNF :
  NonFinite.positions l !! pair = Some posNF ->
  NonFinite.avgEntryPrice posNF = None ->
  exists posNF',
    NonFinite.positions (NonFinite.executeTrade l pair BUY price amt).2 !! pair
      = Some posNF' /\
    NonFinite.avgEntryPrice posNF' = None.
Proof.
  intros Hpos Havg. unfold NonFinite.executeTrade.
  destruct (Qlt_bool _ _); cbn [snd NonFinite.positions].
  - exists posNF. auto.
  - rewrite lookup_insert_eq, Hpos. cbn [default]. unfold id.
    rewrite Havg. eexists. split; reflexivity.
Qed.

Lemma agree_runTrades ts : forall p l,
  agree p l -> agree (runTrades p ts) (runTradesNF l ts).
Proof.
  induction ts as [|t rest IH]; intros p l Hagree; [exact Hagree|].
  cbn. apply IH. unfold applyTrade, applyTradeNF.
  now apply agree_executeTrade.
Qed.

Lemma truthy_positive (a : Q) : 0 < a -> truthy a = true.
Proof.
  intros Ha. unfold truthy. destruct (Qeq_bool a 0) eqn:E; [|reflexivity].
  apply Qeq_bool_iff in E. lra.
Qed.

(** While the BUY calls on the pair have positive amounts and no call on
    it is a SELL, no quotient on the pair has divisor 0. *)
Lemma heldFinite_applyTrade (pair : string) l t :
  buysOn pair t -> heldFinite pair l -> heldFinite pair (applyTradeNF l t).
Proof.
  intros Ht Hheld. unfold applyTradeNF, NonFinite.executeTrade.
  destruct (decide (t_pair t = pair)) as [Hpair|Hne].
  - destruct (Ht Hpair) as [-> Hamt]. rewrite Hpair.
    destruct (Qlt_bool _ _); [exact Hheld|].
    unfold heldFinite in *. cbn [snd NonFinite.positions].
    rewrite lookup_insert_eq.
    cbn [NonFinite.amount NonFinite.avgEntryPrice].
    destruct (NonFinite.positions l !! pair) as [posNF|];
      cbn [default]; unfold id;
      cbn [NonFinite.amount NonFinite.avgEntryPrice].
    + destruct Hheld as [Hpos [w Hw]]. split; [lra|].
      rewrite Hw. cbn. rewrite truthy_positive by lra. eauto.
    + split; [lra|]. cbn. rewrite truthy_positive by lra. eauto.
  - unfold heldFinite in *. destruct (t_type t).
    + destruct (Qlt_bool _ _); [exact Hheld|].
      cbn [snd NonFinite.positions]. now rewrite lookup_insert_ne.
    + destruct (NonFinite.positions l !! t_pair t) as [posT|]; [|exact Hheld].
      destruct (Qlt_bool _ _); [exact Hheld|].
      cbn [snd NonFinite.positions]. destruct (Qle_bool _ _).
      * now rewrite lookup_delete_ne.
      * now rewrite lookup_insert_ne.
Qed.

Lemma heldFinite_runTrades (pair : string) ts : forall l,
  Forall (buysOn pair) ts -> heldFinite pair l ->
  heldFinite pair (runTradesNF l ts).
Proof.
  induction ts as [|t rest IH]; intros l Hall Hheld; [exact Hheld|].
  inversion Hall as [|? ? Ht Hrest]; subst. cbn.
  apply IH; [exact Hrest|]. now apply heldFinite_applyTrade.
Qed.

(** Under those conditions the two embeddings end with the same position
    on the pair: the average entry price of the ledger is the finite
    number the portfolio holds. *)
Lemma fills_finite (pair : string) ts p l pos :
  Forall (buysOn pair) ts -> agree p l -> positions p !! pair = None ->
  positions (runTrades p ts) !! pair = Some pos ->
  exists posNF,
    NonFinite.positions (runTradesNF l ts) !! pair = Some posNF /\
    NonFinite.amount posNF = amount pos /\
    NonFinite.avgEntryPrice posNF = Some (avgEntryPrice pos).
Proof.
  intros Hall Hagree Hnone Hpos.
  assert (Hheld : heldFinite pair l).
  { unfold heldFinite. destruct Hagree as [_ Hl]. specialize (Hl pair).
    rewrite Hnone in Hl.
    now destruct (NonFinite.positions l !! pair). }
  pose proof (heldFinite_runTrades pair ts l Hall Hheld) as Hfin.
  destruct (agree_runTrades ts p l Hagree) as [_ Hend].
  specialize (Hend pair). rewrite Hpos in Hend. unfold heldFinite in Hfin.
  destruct (NonFinite.positions (runTradesNF l ts) !! pair) as [posNF|];
    [|contradiction].
  destruct Hend as [Ha Hv], Hfin as [_ [w Hw]].
  exists posNF. split; [reflexivity|]. split; [now symmetry|].
  rewrite Hw. f_equal. symmetry. now apply Hv.
Qed.

(** C6, as stated, fails.  From the initial ledger a BUY of amount 0 on
    BTC/USDT is accepted (the balance covers a value of 0) and writes the
    average entry price 0 / 0; the BUY of 1 at 50000 that follows is
    accepted too, and the position then holds 1 with an average entry
    price that is still not a number, where the claim gives
    (50000 * 0 + 50000 * 1) / (0 + 1) = 50000. *)
Lemma C6_counterexample :
  (NonFinite.executeTrade NonFinite.initial "BTC/USDT" BUY 50000 0).1 = true /\
  (NonFinite.executeTrade (runTradesNF NonFinite.initial [zeroBuy])
     "BTC/USDT" BUY 50000 1).1 = true /\
  fillsOf "BTC/USDT" initial zeroThenOne = [(50000, 0); (50000, 1)] /\
  totalCost [(50000, 0); (50000, 1)] / totalAmount [(50000, 0); (50000, 1)]
    == 50000 /\
  exists posNF,
    NonFinite.positions (runTradesNF NonFinite.initial zeroThenOne) !! "BTC/USDT"
      = Some posNF /\
    NonFinite.amount posNF == 1 /\
    NonFinite.avgEntryPrice posNF = None.
Proof.
  split; [reflexivity|]. split; [reflexivity|].
  split; [vm_compute; reflexivity|]. split; [vm_compute; reflexivity|].
  eexists. split; [vm_compute; reflexivity|].
  split; [vm_compute; reflexivity | reflexivity].
Qed.

(** ** Weighted average entry price *)

Section Fills.

Context (pair : string).

#[local] Arguments executeTrade : simpl never.

Lemma totalAmount_nonneg p ts :
  Forall (buysOn pair) ts -> 0 <= totalAmount (fillsOf pair p ts).
Proof.
  intros Hts. revert p.
  induction Hts as [|t ts Ht _ IH]; intros p; unfold totalAmount in *; simpl.
  - lra.
  - specialize (IH (applyTrade p t)). unfold isFill.
    case_bool_decide as Hpair; simpl; [|exact IH].
    destruct (Ht Hpair) as [-> Hamt]. simpl.
    match goal with
    | |- context [(executeTrade ?a ?b ?c ?d ?e).1] =>
        destruct (executeTrade a b c d e).1
    end; simpl; [|exact IH].
    unfold fmap in *. lra.
Qed.

(** A call on another pair, and a call that fails, leave the entry of
    [pair] as it is. *)
Lemma applyTrade_other p t :
  t_pair t <> pair -> positions (applyTrade p t) !! pair = positions p !! pair.
Proof.
  intros Hne. destruct t as [pair' [] price amt];
    unfold applyTrade, executeTrade; simpl in *.
  - destruct (Qlt_bool (balance p) (price * amt)); simpl; [reflexivity|].
    now apply lookup_insert_ne.
  - destruct (positions p !! pair') as [pos|]; [|reflexivity].
    destruct (Qlt_bool (amount pos) amt); simpl; [reflexivity|].
    destruct (Qle_bool (amount pos - amt) 0.000001).
    + now apply lookup_delete_ne.
    + now apply lookup_insert_ne.
Qed.

(** The effect of one successful BUY on the entry of its pair. *)
Lemma applyTrade_buy p price amt :
  (executeTrade p pair BUY price amt).1 = true ->
  let pos := default {| amount := 0; avgEntryPrice := 0 |} (positions p !! pair) in
  positions (executeTrade p pair BUY price amt).2 !! pair =
    Some {| amount := amount pos + amt;
            avgEntryPrice :=
              (amount pos * avgEntryPrice pos + price * amt) / (amount pos + amt) |}.
Proof.
  unfold executeTrade.
  destruct (Qlt_bool (balance p) (price * amt)); [discriminate|].
  intros _. simpl. apply lookup_insert_eq.
Qed.

Lemma applyTrade_failed p t :
  (executeTrade p (t_pair t) (t_type t) (t_price t) (t_amount t)).1 = false ->
  applyTrade p t = p.
Proof.
  intros Hfail. unfold applyTrade.
  now apply (failed_trade_unchanged p (t_pair t) (t_price t) (t_amount t) (t_type t)).
Qed.

(** The invariant of a held position under further fills, free of
    division: amount times average entry price is the cost paid. *)
Lemma fills_held ts : forall p pos0,
  Forall (buysOn pair) ts ->
  positions p !! pair = Some pos0 -> 0 < amount pos0 ->
  exists pos,
    positions (runTrades p ts) !! pair = Some pos /\
    amount pos == amount pos0 + totalAmount (fillsOf pair p ts) /\
    amount pos * avgEntryPrice pos
      == amount pos0 * avgEntryPrice pos0 + totalCost (fillsOf pair p ts).
Proof.
  induction ts as [|t rest IH]; intros p pos0 Hall Hpos Hpos0.
  - exists pos0. unfold totalAmount, totalCost. simpl.
    split; [exact Hpos|]. split; lra.
  - inversion Hall as [|? ? Ht Hrest]; subst. simpl. unfold isFill.
    case_bool_decide as Hpair; simpl.
    + destruct (Ht Hpair) as [Hbuy Hamt].
      destruct t as [pair' type price amt]. simpl in *. subst pair' type.
      destruct (executeTrade p pair BUY price amt).1 eqn:Hok; simpl.
      * pose proof (applyTrade_buy p price amt Hok) as Hpos1.
        rewrite Hpos in Hpos1. simpl in Hpos1.
        destruct (IH _ _ Hrest Hpos1) as (pos & Hlook & Hsum & Hcost);
          [simpl; lra|].
        exists pos. split; [exact Hlook|].
        unfold totalAmount, totalCost, applyTrade in *. simpl in *.
        unfold fmap in *.
        split; [lra|]. rewrite Hcost.
        rewrite Qmult_div_r by lra. lra.
      * rewrite (applyTrade_failed p (Build_Trade pair BUY price amt) Hok).
        now apply IH.
    + apply IH; [exact Hrest | | exact Hpos0].
      now rewrite applyTrade_other.
Qed.

(** C6, amended.  Take any sequence of [executeTrade] calls in which no
    call on the pair is a SELL and the BUY calls on the pair have
    positive amounts, made from a portfolio with no position on the
    pair, and let the fills be the BUY calls on the pair that succeed.
    If there is at least one fill, the pair's position after the
    sequence has as amount the sum of the fill amounts, and as average
    entry price the sum of price times amount over the fills divided by
    the sum of the amounts. *)
Theorem C6_weighted_average (ts : list Trade) : forall p,
  Forall (buysOn pair) ts ->
  positions p !! pair = None ->
  fillsOf pair p ts <> [] ->
  exists pos,
    positions (runTrades p ts) !! pair = Some pos /\
    amount pos == totalAmount (fillsOf pair p ts) /\
    avgEntryPrice pos
      == totalCost (fillsOf pair p ts) / totalAmount (fillsOf pair p ts).
Proof.
  induction ts as [|t rest IH]; intros p Hall Hnone Hne; [now destruct Hne|].
  inversion Hall as [|? ? Ht Hrest]; subst.
  simpl in Hne |- *. unfold isFill in Hne |- *.
  case_bool_decide as Hpair; simpl in Hne |- *.
  - destruct (Ht Hpair) as [Hbuy Hamt].
    destruct t as [pair' type price amt]. simpl in *. subst pair' type.
    destruct (executeTrade p pair BUY price amt).1 eqn:Hok; simpl in Hne |- *.
    + clear IH Hne.
      pose proof (applyTrade_buy p price amt Hok) as Hpos1.
      rewrite Hnone in Hpos1. simpl in Hpos1.
      destruct (fills_held rest _ _ Hrest Hpos1) as (pos & Hlook & Hsum & Hcost);
        [simpl; lra|].
      pose proof (totalAmount_nonneg
                    (applyTrade p (Build_Trade pair BUY price amt))
                    rest Hrest) as Hnn.
      exists pos. split; [exact Hlook|].
      unfold totalAmount, totalCost, applyTrade in *. simpl in *.
      unfold fmap in *.
      rewrite Qmult_div_r in Hcost by lra.
      split; [lra|].
      rewrite <- (Qdiv_mult_l (avgEntryPrice pos) (amount pos)) by lra.
      rewrite (Qmult_comm (avgEntryPrice pos)), Hcost, Hsum.
      apply Qdiv_comp; lra.
    + rewrite (applyTrade_failed p (Build_Trade pair BUY price amt) Hok) in Hne |- *.
      now apply IH.
  - apply IH; [exact Hrest | | exact Hne].
    now rewrite applyTrade_other.
Qed.

End Fills.

Lemma C6_witness :
  exists pos,
    positions (runTrades initial sampleBuys) !! "BTC/USDT" = Some pos /\
    amount pos == totalAmount (fillsOf "BTC/USDT" initial sampleBuys) /\
    avgEntryPrice pos
      == totalCost (fillsOf "BTC/USDT" initial sampleBuys)
         / totalAmount (fillsOf "BTC/USDT" initial sampleBuys).
Proof.
  apply (C6_weighted_average "BTC/USDT" sampleBuys initial).
  - repeat constructor; vm_compute; reflexivity.
  - reflexivity.
  - vm_compute. discriminate.
Defined.

Example sampleBuys_fills :
  fillsOf "BTC/USDT" initial sampleBuys = [(50000, 1); (40000, 0.5)].
Proof. vm_compute. reflexivity. Qed.

(** ** Drawdown *)

Lemma sumQ_nonneg (l : list Q) : Forall (Qle 0) l -> 0 <= sumQ l.
Proof.
  induction 1 as [|x l Hx _ IH]; unfold sumQ in *; simpl; lra.
Qed.

Lemma lastPrice_nonneg md pair price :
  nonNegPrices md -> lastPrice md pair = Some price -> 0 <= price.
Proof.
  intros Hmd. unfold lastPrice.
  destruct (md !! pair) as [l|] eqn:Hl; [|discriminate].
  destruct (truthy l); [|discriminate]. intros [= <-].
  exact (Hmd pair l Hl).
Qed.

Lemma currentEquity_nonneg p md :
  0 <= balance p ->
  map_Forall (fun _ pos => 0 <= amount pos) (positions p) ->
  nonNegPrices md ->
  0 <= currentEquity p md.
Proof.
  intros Hb Hpos Hmd. rewrite currentEquity_sum.
  assert (0 <= sumQ (pricedValue md <$> map_to_list (positions p))); [|lra].
  apply sumQ_nonneg, Forall_fmap, Forall_forall. intros [pair pos] Hin.
  apply elem_of_map_to_list in Hin. apply Hpos in Hin. simpl in Hin.
  unfold compose, pricedValue. simpl.
  destruct (lastPrice md pair) as [price|] eqn:Hprice; [|lra].
  pose proof (lastPrice_nonneg md pair price Hmd Hprice). nra.
Qed.

Lemma updatePrices_drawdown_range p md :
  0 < initialBalance p -> 0 <= currentEquity p md ->
  0 <= drawdown (updatePrices p md) /\ drawdown (updatePrices p md) <= 1.
Proof.
  intros Hinit Hcur. simpl.
  destruct (Math_max_spec (initialBalance p) (currentEquity p md)) as (H1 & H2 & _).
  set (peak := Math_max (initialBalance p) (currentEquity p md)) in *.
  split.
  - apply Qle_shift_div_l; lra.
  - apply Qle_shift_div_r; lra.
Qed.

Lemma applyTrade_amounts_nonneg p t :
  0 <= t_amount t ->
  map_Forall (fun _ pos => 0 <= amount pos) (positions p) ->
  map_Forall (fun _ pos => 0 <= amount pos) (positions (applyTrade p t)).
Proof.
  intros Ht Hp. destruct t as [pair [] price amt];
    unfold applyTrade, executeTrade; simpl in *.
  - destruct (Qlt_bool (balance p) (price * amt)); simpl; [exact Hp|].
    apply map_Forall_insert_2; [|exact Hp]. simpl.
    destruct (positions p !! pair) as [pos|] eqn:Hpos; simpl.
    + apply Hp in Hpos. simpl in Hpos. lra.
    + lra.
  - destruct (positions p !! pair) as [pos|] eqn:Hpos; [|exact Hp].
    case_lt (amount pos) amt H; simpl; [exact Hp|].
    destruct (Qle_bool (amount pos - amt) 0.000001).
    + now apply map_Forall_delete.
    + apply map_Forall_insert_2; [simpl; lra | exact Hp].
Qed.

Lemma applyTrade_frame p t :
  initialBalance (applyTrade p t) = initialBalance p /\
  drawdown (applyTrade p t) = drawdown p /\
  maxDrawdown (applyTrade p t) = maxDrawdown p.
Proof.
  destruct t as [pair [] price amt]; unfold applyTrade, executeTrade; simpl.
  - destruct (Qlt_bool (balance p) (price * amt)); auto.
  - destruct (positions p !! pair) as [pos|]; auto.
    destruct (Qlt_bool (amount pos) amt); auto.
Qed.

Lemma applyOp_ledgerInv p op :
  validOp op -> ledgerInv p -> ledgerInv (applyOp p op).
Proof.
  intros Hop (Hb & Hpos & Hinit & Hdd). destruct op as [t|md]; simpl in *.
  - destruct Hop as [Hprice Hamt].
    destruct (applyTrade_frame p t) as (Ei & Ed & _).
    unfold ledgerInv. rewrite Ei, Ed.
    split; [now apply executeTrade_balance_nonneg|].
    split; [now apply applyTrade_amounts_nonneg|]. auto.
  - unfold ledgerInv.
    split; [exact Hb|]. split; [exact Hpos|]. split; [exact Hinit|].
    apply updatePrices_drawdown_range; [exact Hinit|].
    now apply currentEquity_nonneg.
Qed.

Lemma runOps_ledgerInv ops : forall p,
  Forall validOp ops -> ledgerInv p -> ledgerInv (runOps p ops).
Proof.
  induction ops as [|op ops IH]; intros p Hops Hp; [exact Hp|].
  inversion Hops; subst. simpl. apply IH; [assumption|].
  now apply applyOp_ledgerInv.
Qed.

Lemma initial_ledgerInv : ledgerInv initial.
Proof.
  unfold ledgerInv. simpl.
  split; [lra|]. split; [apply map_Forall_empty|]. repeat split; lra.
Qed.

Lemma updatePrices_maxDrawdown p md :
  maxDrawdown p <= maxDrawdown (updatePrices p md).
Proof.
  simpl.
  match goal with |- context [Qlt_bool ?a ?b] => case_lt a b H end; lra.
Qed.

Lemma applyOp_maxDrawdown p op : maxDrawdown p <= maxDrawdown (applyOp p op).
Proof.
  destruct op as [t|md]; simpl.
  - destruct (applyTrade_frame p t) as (_ & _ & ->). lra.
  - apply updatePrices_maxDrawdown.
Qed.

Lemma runOps_maxDrawdown ops : forall p,
  maxDrawdown p <= maxDrawdown (runOps p ops).
Proof.
  induction ops as [|op ops IH]; intros p; simpl; [lra|].
  apply Qle_trans with (maxDrawdown (applyOp p op));
    [apply applyOp_maxDrawdown | apply IH].
Qed.

Lemma runPrices_maxDrawdown mds : forall p,
  maxDrawdown p <= maxDrawdown (fold_left updatePrices mds p).
Proof.
  induction mds as [|md mds IH]; intros p; simpl; [lra|].
  apply Qle_trans with (maxDrawdown (updatePrices p md));
    [apply updatePrices_maxDrawdown | apply IH].
Qed.

(** C7.  In every portfolio reached from the initial one by calls of
    [executeTrade] with non-negative prices and amounts and calls of
    [updatePrices] with non-negative last prices, drawdown lies in
    [0, 1].  [maxDrawdown] never decreases: not across any sequence of
    [updatePrices] calls from any portfolio, and not from any point of the
    run to its end. *)
Theorem C7_drawdown_range_maxDrawdown_monotone (ops : list Op) (n : nat) :
  Forall validOp ops ->
  let p := runOps initial (take n ops) in
  (0 <= drawdown p /\ drawdown p <= 1) /\
  (forall q mds, maxDrawdown q <= maxDrawdown (fold_left updatePrices mds q)) /\
  maxDrawdown p <= maxDrawdown (runOps initial ops).
Proof.
  intros Hops p. split; [|split].
  - assert (ledgerInv p) as (_ & _ & _ & Hdd).
    { apply runOps_ledgerInv; [now apply Forall_take | apply initial_ledgerInv]. }
    exact Hdd.
  - intros q mds. apply runPrices_maxDrawdown.
  - replace (runOps initial ops) with (runOps p (drop n ops)).
    + apply runOps_maxDrawdown.
    + unfold p, runOps. now rewrite <- fold_left_app, take_drop.
Qed.

Lemma sampleOps_valid : Forall validOp sampleOps.
Proof.
  repeat constructor; simpl; try (vm_compute; discriminate);
    apply map_Forall_insert_2; try apply map_Forall_empty;
    vm_compute; discriminate.
Defined.

Lemma C7_witness :
  let p := runOps initial (take 2 sampleOps) in
  (0 <= drawdown p /\ drawdown p <= 1) /\
  (forall q mds, maxDrawdown q <= maxDrawdown (fold_left updatePrices mds q)) /\
  maxDrawdown p <= maxDrawdown (runOps initial sampleOps).
Proof.
  exact (C7_drawdown_range_maxDrawdown_monotone sampleOps 2 sampleOps_valid).
Defined.

(** ** The trade log *)

Lemma applyCall_logs e c :
  exists entry,
    TradingEngine.logs (applyCall e c) =
      (let pushed := TradingEngine.logs e ++ [entry] in
       if (1000 <? length pushed)%nat then tail pushed else pushed) /\
    TradingEngine.status entry =
      (if accepted e c then TradingEngine.EXECUTED else TradingEngine.FAILED) /\
    TradingEngine.pair entry = c_pair c /\
    TradingEngine.type entry = c_type c /\
    TradingEngine.amount entry = c_amount c /\
    TradingEngine.price entry =
      TradingEngine.executedPrice (c_type c) (c_price c) (c_random c).
Proof.
  unfold applyCall, accepted, TradingEngine.executeTrade.
  destruct (executeTrade _ _ _ _ _) as [success portfolio'].
  eexists. simpl. split; [reflexivity|]. simpl. auto.
Qed.

Lemma push_shift {A} (l : list A) (x : A) :
  (length l <= 1000)%nat ->
  (let pushed := l ++ [x] in
   if (1000 <? length pushed)%nat then tail pushed else pushed)
  = (if (length l =? 1000)%nat then tail l else l) ++ [x].
Proof.
  intros Hlen. simpl. rewrite length_app. simpl.
  destruct (Nat.eqb_spec (length l) 1000) as [E|E].
  - rewrite E. simpl. destruct l; [discriminate | reflexivity].
  - destruct (Nat.ltb_spec 1000 (length l + 1)); [lia | reflexivity].
Qed.

Lemma applyCall_length e c :
  (length (TradingEngine.logs e) <= 1000)%nat ->
  length (TradingEngine.logs (applyCall e c))
    = Nat.min (S (length (TradingEngine.logs e))) 1000.
Proof.
  intros Hlen. destruct (applyCall_logs e c) as (entry & -> & _).
  rewrite push_shift by exact Hlen. rewrite length_app. simpl.
  destruct (Nat.eqb_spec (length (TradingEngine.logs e)) 1000) as [E|E].
  - destruct (TradingEngine.logs e); [discriminate|]. simpl in *. lia.
  - lia.
Qed.

Lemma runCalls_length cs : forall e,
  (length (TradingEngine.logs e) <= 1000)%nat ->
  (length (TradingEngine.logs (runCalls e cs)) <= 1000)%nat.
Proof.
  induction cs as [|c cs IH]; intros e Hlen; [exact Hlen|].
  simpl. apply IH. rewrite applyCall_length by exact Hlen. lia.
Qed.

(** C8.  In the engine state [e] reached from the initial engine by any
    sequence of [executeTrade] calls, the log holds at most 1000 entries;
    one more call appends exactly one entry at the end of the log, with
    status EXECUTED when the risk manager accepted the trade and FAILED
    when it did not; when the log already held 1000 entries its oldest
    (first) entry is dropped and the others stay in their order, so the
    log again holds at most 1000 entries. *)
Theorem C8_log_append_and_cap (cs : list Call) (c : Call) :
  let e := runCalls TradingEngine.initial cs in
  (length (TradingEngine.logs e) <= 1000)%nat /\
  (exists entry,
     TradingEngine.logs (applyCall e c) =
       (if (length (TradingEngine.logs e) =? 1000)%nat
        then tail (TradingEngine.logs e) else TradingEngine.logs e) ++ [entry] /\
     TradingEngine.status entry =
       (if accepted e c then TradingEngine.EXECUTED else TradingEngine.FAILED)) /\
  (length (TradingEngine.logs (applyCall e c)) <= 1000)%nat.
Proof.
  intros e.
  assert (length (TradingEngine.logs e) <= 1000)%nat as Hlen.
  { apply runCalls_length. simpl. lia. }
  split; [exact Hlen|]. split.
  - destruct (applyCall_logs e c) as (entry & Hlogs & Hstatus & _).
    exists entry. split; [|exact Hstatus].
    rewrite Hlogs. now apply push_shift.
  - rewrite applyCall_length by exact Hlen. lia.
Qed.

(** ** The rebalance plan *)

Lemma Math_abs_Qabs (a : Q) : Math_abs a == Qabs a.
Proof.
  unfold Math_abs. case_lt a 0 H.
  - rewrite Qabs_neg by lra. reflexivity.
  - rewrite Qabs_pos by lra. reflexivity.
Qed.

Section RebalancePlan.

Context (p : Portfolio) (md : gmap string Q).

Lemma rebalanceEntry_planned entry o :
  rebalanceEntry p md (currentEquity p md) entry = Some o ->
  entry ∈ targetAllocations p -> planned p md o.
Proof.
  destruct entry as [pair targetPct]. unfold rebalanceEntry. simpl.
  destruct (lastPrice md pair) as [price|] eqn:Hprice; [|discriminate].
  fold (valueAt p pair price).
  case_lt 0.05 (Math_abs (valueAt p pair price - currentEquity p md * targetPct)
                / currentEquity p md) Hdev; [|discriminate].
  rewrite Math_abs_Qabs in Hdev.
  case_lt (currentEquity p md * targetPct) (valueAt p pair price) Hcmp.
  - intros [= <-] Hin. exists pair, targetPct, price.
    split; [exact Hin|]. split; [exact Hprice|]. simpl.
    split; [exact Hdev|]. left. auto.
  - case_le (currentEquity p md * targetPct - valueAt p pair price) (balance p) Hbal;
      [|discriminate].
    intros [= <-] Hin. exists pair, targetPct, price.
    split; [exact Hin|]. split; [exact Hprice|]. simpl.
    split; [exact Hdev|]. right. auto.
Qed.





End RebalancePlan.


Example sampleOrder_returned : checkRebalance initial sampleSnapshot = [sampleOrder].
Proof. vm_compute. reflexivity. Qed.

(** ** The pnl field of a log entry *)

(** The entry pushed by a call, whatever the cap then drops. *)
Lemma applyCall_entry_pnl e c :
  exists entry,
    last (TradingEngine.logs (applyCall e c)) = Some entry /\
    TradingEngine.pnl entry =
      if accepted e c then
        match c_type c with
        | SELL =>
            Some (calculateTradePnL (TradingEngine.riskManager (applyCall e c))
                    (c_pair c)
                    (TradingEngine.executedPrice (c_type c) (c_price c) (c_random c))
                    (c_amount c))
        | BUY => None
        end
      else None.
Proof.
  unfold applyCall, accepted, TradingEngine.executeTrade.
  destruct (executeTrade _ _ _ _ _) as [success portfolio'].
  eexists. simpl. split.
  - destruct (1000 <? _)%nat eqn:Hcap.
    + destruct (TradingEngine.logs e) as [|x l]; [discriminate Hcap|].
      simpl. apply last_snoc.
    + apply last_snoc.
  - reflexivity.
Qed.

(** After a successful SELL, [calculateTradePnL] reads the position the
    SELL left behind: it returns the realized pnl when the pair is still
    held and 0 when the SELL removed it. *)
Lemma calculateTradePnL_after_sell p pair price amt pos :
  positions p !! pair = Some pos -> amt <= amount pos ->
  calculateTradePnL (executeTrade p pair SELL price amt).2 pair price amt =
    if Qle_bool (amount pos - amt) epsilon then 0
    else (price - avgEntryPrice pos) * amt.
Proof.
  intros Hpos Hle. unfold calculateTradePnL, executeTrade. rewrite Hpos.
  case_lt (amount pos) amt H; [lra|]. simpl. unfold epsilon.
  destruct (Qle_bool (amount pos - amt) 0.000001).
  - now rewrite lookup_delete_eq.
  - now rewrite lookup_insert_eq.
Qed.

(** C4: the code at the failing input.  The engine buys 1 BTC/USDT at
    50000 and then sells 1 BTC/USDT at 60000, both without slippage.  The
    SELL is executed at 60000 against an average entry price of 50000, so
    the realized pnl is 10000, and the portfolio's pnl grows by 10000;
    but the SELL empties the position, the pair is deleted before the
    engine calls [calculateTradePnL], and the entry appended to the log
    carries pnl 0. *)
Theorem C4_full_close_logs_zero_pnl :
  let e1 := applyCall TradingEngine.initial openCall in
  let e2 := applyCall e1 closeCall in
  exists pos entry,
    positions (TradingEngine.riskManager e1) !! "BTC/USDT" = Some pos /\
    avgEntryPrice pos == 50000 /\
    accepted e1 closeCall = true /\
    last (TradingEngine.logs e2) = Some entry /\
    TradingEngine.status entry = TradingEngine.EXECUTED /\
    TradingEngine.type entry = SELL /\
    TradingEngine.price entry == 60000 /\
    TradingEngine.amount entry == 1 /\
    (TradingEngine.price entry - avgEntryPrice pos) * TradingEngine.amount entry
      == 10000 /\
    pnl (TradingEngine.riskManager e2) - pnl (TradingEngine.riskManager e1)
      == 10000 /\
    positions (TradingEngine.riskManager e2) !! "BTC/USDT" = None /\
    TradingEngine.pnl entry = Some 0.
Proof.
  intros e1 e2. do 2 eexists.
  split; [vm_compute; reflexivity|].
  split; [vm_compute; reflexivity|].
  split; [vm_compute; reflexivity|].
  split; [vm_compute; reflexivity|].
  repeat split; vm_compute; reflexivity.
Qed.

Lemma applyCall_riskManager e c :
  TradingEngine.riskManager (applyCall e c) =
    (executeTrade (TradingEngine.riskManager e) (c_pair c) (c_type c)
       (TradingEngine.executedPrice (c_type c) (c_price c) (c_random c))
       (c_amount c)).2.
Proof.
  unfold applyCall, TradingEngine.executeTrade.
  now destruct (executeTrade _ _ _ _ _).
Qed.

(** What the engine logs for a SELL the risk manager accepts: the
    realized pnl when the pair stays in the map, 0 when the SELL closes
    the position. *)
Lemma sell_entry_pnl e c pos :
  c_type c = SELL ->
  positions (TradingEngine.riskManager e) !! c_pair c = Some pos ->
  c_amount c <= amount pos ->
  exists entry,
    last (TradingEngine.logs (applyCall e c)) = Some entry /\
    TradingEngine.pnl entry =
      Some (if Qle_bool (amount pos - c_amount c) epsilon then 0
            else (TradingEngine.executedPrice SELL (c_price c) (c_random c)
                  - avgEntryPrice pos) * c_amount c).
Proof.
  intros Htype Hpos Hle.
  destruct (applyCall_entry_pnl e c) as (entry & Hlast & Hpnl).
  exists entry. split; [exact Hlast|]. rewrite Hpnl.
  assert (accepted e c = true) as ->.
  { unfold accepted, executeTrade. rewrite Htype, Hpos.
    case_lt (amount pos) (c_amount c) H; [lra | reflexivity]. }
  rewrite Htype. f_equal.
  rewrite applyCall_riskManager, Htype.
  now apply calculateTradePnL_after_sell.
Qed.

(** Whatever the two slippage draws in [0, 1), the engine that buys
    1 BTC/USDT at 50000 and sells it at 60000 realizes at least 9890 and
    logs a pnl of 0 for the SELL. *)
Lemma full_close_any_slippage (r1 r2 : Q) :
  0 <= r1 -> r1 < 1 -> 0 <= r2 -> r2 < 1 ->
  let e1 := applyCall TradingEngine.initial (openWith r1) in
  let e2 := applyCall e1 (closeWith r2) in
  exists entry,
    last (TradingEngine.logs e2) = Some entry /\
    TradingEngine.pnl entry = Some 0 /\
    9890 <= (TradingEngine.executedPrice SELL 60000 r2
             - TradingEngine.executedPrice BUY 50000 r1) * 1.
Proof.
  intros H1 H1' H2 H2' e1 e2.
  set (bought := TradingEngine.executedPrice BUY 50000 r1).
  assert (positions (TradingEngine.riskManager e1) !! "BTC/USDT"
          = Some {| amount := 0 + 1;
                    avgEntryPrice := (0 * 0 + bought * 1) / (0 + 1) |}) as Hpos.
  { unfold e1. rewrite applyCall_riskManager.
    apply (applyTrade_buy "BTC/USDT" initial bought 1).
    unfold executeTrade.
    case_lt (balance initial) (bought * 1) Hlt; [|reflexivity].
    exfalso. unfold bought, TradingEngine.executedPrice in Hlt.
    simpl in Hlt. nra. }
  destruct (sell_entry_pnl e1 (closeWith r2) _ eq_refl Hpos) as (entry & Hlast & Hpnl).
  { simpl. lra. }
  exists entry. split; [exact Hlast|]. split; [exact Hpnl|].
  unfold bought, TradingEngine.executedPrice. cbv zeta. lra.
Qed.

(** ** The scenarios of the specification *)

(** From a balance of 100000, BUY 1 at 50000 with no slippage leaves a
    balance of 50000 and the position (1, 50000). *)
Example scenario_first_buy :
  let e1 := applyCall TradingEngine.initial openCall in
  balance (TradingEngine.riskManager e1) == 50000 /\
  exists pos,
    positions (TradingEngine.riskManager e1) !! "BTC/USDT" = Some pos /\
    amount pos == 1 /\ avgEntryPrice pos == 50000.
Proof.
  split; [vm_compute; reflexivity|].
  eexists. split; [vm_compute; reflexivity|].
  split; vm_compute; reflexivity.
Qed.

(** A second BUY of 1 at 60000 then fails: the portfolio is unchanged and
    a FAILED entry is appended to the log. *)
Example scenario_second_buy_fails :
  let e1 := applyCall TradingEngine.initial openCall in
  let e2 := applyCall e1 secondBuy in
  accepted e1 secondBuy = false /\
  TradingEngine.riskManager e2 = TradingEngine.riskManager e1 /\
  TradingEngine.status <$> TradingEngine.logs e2
    = [TradingEngine.EXECUTED; TradingEngine.FAILED].
Proof.
  repeat split; vm_compute; reflexivity.
Qed.

(** With equity 100000, a BTC/USDT target of 30% and 20000 held, the
    deviation is 10% and the plan is one BUY of (30000 - 20000) / price. *)
Example scenario_rebalance_buy :
  currentEquity underweightBTC sampleSnapshot == 100000 /\
  exists o,
    checkRebalance underweightBTC sampleSnapshot = [o] /\
    o_pair o = "BTC/USDT" /\ o_action o = BUY /\
    o_amount o == (30000 - 20000) / 50000 /\ o_price o = 50000.
Proof.
  split; [vm_compute; reflexivity|].
  eexists. split; [vm_compute; reflexivity|].
  repeat split; vm_compute; reflexivity.
Qed.

(** ** Position sizing *)

Lemma throttled_dec p pair :
  ((minPairs <=? size (positions p))%nat &&
   match positions p !! pair with Some _ => false | None => true end) = true
  <-> throttled p pair.
Proof.
  unfold throttled. rewrite andb_true_iff, Nat.leb_le.
  destruct (positions p !! pair); intuition congruence.
Qed.

(** The size before the diversification test: with a positive balance
    and price the risk-based size is worth half the balance, above the
    cap, so the cap always applies. *)
Lemma sized_value p pair price :
  0 < balance p -> 0 < price ->
  calculatePositionSize p pair price * price
  == balance p * (if (minPairs <=? size (positions p))%nat &&
                     match positions p !! pair with
                     | Some _ => false | None => true end
                  then 0.075 else 0.15).
Proof.
  intros Hb Hp. unfold calculatePositionSize, stopLossLimit, maxPositionSize.
  cbv zeta.
  assert (balance p * 0.01 / (price * 0.02) * price == balance p * 0.5) as Hrisk.
  { field. lra. }
  case_lt (balance p * 0.15) (balance p * 0.01 / (price * 0.02) * price) Hcap.
  - destruct (_ && _); field; lra.
  - rewrite Hrisk in Hcap. lra.
Qed.

(** X1.  With a positive balance and a positive price,
    [calculatePositionSize] returns a size worth exactly 15% of the
    balance at that price, or 7.5% when at least five pairs are held and
    the pair is not one of them: the size from the 1% risk and the 2%
    stop loss is worth 50% of the balance, so the 15% cap always
    replaces it. *)
Theorem X1_position_size_value p (pair : string) (price : Q) :
  0 < balance p -> 0 < price ->
  (throttled p pair ->
   calculatePositionSize p pair price * price == balance p * 0.075) /\
  (~ throttled p pair ->
   calculatePositionSize p pair price * price == balance p * 0.15) /\
  0 < calculatePositionSize p pair price.
Proof.
  intros Hb Hp. pose proof (sized_value p pair price Hb Hp) as Hv.
  pose proof (throttled_dec p pair) as Hdec.
  destruct (_ && _) eqn:Ht.
  - split; [intros _; exact Hv|]. split; [intros Hn; now destruct Hn; apply Hdec|].
    apply Qnot_le_lt. intros Hle. nra.
  - split; [intros Hthr; apply Hdec in Hthr; discriminate|].
    split; [intros _; exact Hv|].
    apply Qnot_le_lt. intros Hle. nra.
Qed.

Lemma X1_witness :
  (throttled fivePairs "DOGE/USDT" ->
   calculatePositionSize fivePairs "DOGE/USDT" 2 * 2 == balance fivePairs * 0.075) /\
  (~ throttled fivePairs "DOGE/USDT" ->
   calculatePositionSize fivePairs "DOGE/USDT" 2 * 2 == balance fivePairs * 0.15) /\
  0 < calculatePositionSize fivePairs "DOGE/USDT" 2.
Proof.
  apply (X1_position_size_value fivePairs "DOGE/USDT" 2); vm_compute; reflexivity.
Defined.

Example fivePairs_throttled :
  throttled fivePairs "DOGE/USDT" /\ ~ throttled fivePairs "BTC/USDT" /\
  calculatePositionSize fivePairs "DOGE/USDT" 2 == 750 /\
  calculatePositionSize fivePairs "BTC/USDT" 2 == 1500.
Proof.
  split; [split; [vm_compute; lia | reflexivity]|].
  split; [intros [_ H]; discriminate H|].
  split; vm_compute; reflexivity.
Qed.

Lemma sized_buy_accepted p (pair : string) (price random : Q) :
  0 < balance p -> 0 < price -> 0 <= random -> random <= 1 ->
  let executed := TradingEngine.executedPrice BUY price random in
  let r := executeTrade p pair BUY executed (calculatePositionSize p pair price) in
  r.1 = true /\ balance p * 0.84 < balance r.2.
Proof.
  intros Hb Hp Hr0 Hr1 executed r.
  pose proof (sized_value p pair price Hb Hp) as Hv.
  set (size := calculatePositionSize p pair price) in *.
  assert (executed * size == size * price * (1 + random * 0.001)) as Hcost.
  { unfold executed, TradingEngine.executedPrice. cbv zeta. ring. }
  assert (executed * size <= balance p * 0.15015) as Hle.
  { rewrite Hcost, Hv. destruct (_ && _); nra. }
  unfold r, executeTrade.
  case_lt (balance p) (executed * size) Hlt; [lra|]. simpl. split; [reflexivity | lra].
Qed.

Lemma sized_positive p (pair : string) (price : Q) :
  0 < balance p -> 0 < price -> 0 < calculatePositionSize p pair price.
Proof.
  intros Hb Hp. pose proof (sized_value p pair price Hb Hp) as Hv.
  apply Qnot_le_lt. intros Hle. destruct (_ && _); nra.
Qed.

(** X2.  A BUY of the size [calculatePositionSize] returns, executed by
    the engine at the signal price plus any slippage draw in [0, 1], is
    accepted by the risk manager when the balance and the price are
    positive, and leaves more than 84% of the balance. *)
Theorem X2_sized_buy_accepted p (pair : string) (price random : Q) :
  0 < balance p -> 0 < price -> 0 <= random -> random <= 1 ->
  let executed := TradingEngine.executedPrice BUY price random in
  let r := executeTrade p pair BUY executed (calculatePositionSize p pair price) in
  r.1 = true /\ balance p * 0.84 < balance r.2.
Proof.
  intros Hb Hp Hr0 Hr1. split.
  - now apply sized_buy_accepted.
  - now apply sized_buy_accepted.
Qed.

Lemma X2_witness :
  let executed := TradingEngine.executedPrice BUY 50000 0.5 in
  let r := executeTrade initial "BTC/USDT" BUY executed
             (calculatePositionSize initial "BTC/USDT" 50000) in
  r.1 = true /\ balance initial * 0.84 < balance r.2.
Proof.
  apply (X2_sized_buy_accepted initial "BTC/USDT" 50000 0.5);
    vm_compute; first [reflexivity | discriminate].
Defined.

(** ** Trade statistics *)

Lemma of_nat_le (m n : nat) : (m <= n)%nat -> of_nat m <= of_nat n.
Proof.
  intros H. unfold of_nat. rewrite <- Zle_Qle. lia.
Qed.

Lemma of_nat_S_pos (n : nat) : 0 < of_nat (S n).
Proof.
  unfold of_nat. change 0 with (inject_Z 0). rewrite <- Zlt_Qlt. lia.
Qed.

Lemma applyTrade_statsInv p t : statsInv p -> statsInv (applyTrade p t).
Proof.
  intros [Hle Hst]. destruct t as [pair [] price amt];
    unfold applyTrade, executeTrade; simpl.
  - destruct (Qlt_bool (balance p) (price * amt)); simpl; now split.
  - destruct (positions p !! pair) as [pos|]; [|now split].
    destruct (Qlt_bool (amount pos) amt); [now split|].
    unfold statsInv. simpl. split; [|now split].
    destruct (Qlt_bool 0 ((price - avgEntryPrice pos) * amt)); lia.
Qed.

Lemma updatePrices_statsInv p md : statsInv p -> statsInv (updatePrices p md).
Proof. intros H. exact H. Qed.

Lemma runOps_statsInv ops : forall p, statsInv p -> statsInv (runOps p ops).
Proof.
  induction ops as [|op ops IH]; intros p Hp; [exact Hp|].
  simpl. apply IH. destruct op; simpl;
    [now apply applyTrade_statsInv | now apply updatePrices_statsInv].
Qed.

Lemma statsInv_ranges p :
  statsInv p ->
  0 <= winRate p /\ winRate p <= 100 /\
  -1 <= sharpeRatio p /\ sharpeRatio p <= 4.
Proof.
  intros [Hle Hst]. destruct (totalTrades p) as [|n] eqn:Ht.
  - destruct Hst as [-> ->]. repeat split; lra.
  - destruct Hst as [Hw Hs].
    pose proof (of_nat_S_pos n) as Hpos.
    pose proof (of_nat_le _ _ Hle) as Hle'.
    assert (0 <= of_nat (winningTrades p)) as Hnn.
    { change 0 with (of_nat 0). apply of_nat_le. lia. }
    assert (0 <= of_nat (winningTrades p) / of_nat (S n)
            /\ of_nat (winningTrades p) / of_nat (S n) <= 1) as [H0 H1].
    { split; [apply Qle_shift_div_l | apply Qle_shift_div_r]; lra. }
    rewrite Hs, Hw. repeat split; lra.
Qed.

(** X3.  After any sequence of [executeTrade] and [updatePrices] calls
    from the initial portfolio, winningTrades is at most totalTrades;
    while totalTrades is 0, winRate is 0 and sharpeRatio is 1.5; once
    totalTrades is positive, winRate is winningTrades / totalTrades * 100
    and sharpeRatio is 1.5 + (winRate - 50) * 0.05.  So winRate stays in
    [0, 100] and sharpeRatio in [-1, 4]. *)
Theorem X3_trade_statistics (ops : list Op) :
  let p := runOps initial ops in
  statsInv p /\
  0 <= winRate p /\ winRate p <= 100 /\
  -1 <= sharpeRatio p /\ sharpeRatio p <= 4.
Proof.
  intros p.
  assert (statsInv p) as Hinv.
  { apply runOps_statsInv. split; [simpl; lia | simpl; auto]. }
  split; [exact Hinv | now apply statsInv_ranges].
Qed.

Lemma applyTrade_totalTrades p t :
  totalTrades (applyTrade p t) =
    (totalTrades p +
     match t_type t with
     | SELL =>
         if (executeTrade p (t_pair t) SELL (t_price t) (t_amount t)).1
         then 1 else 0
     | BUY => 0
     end)%nat.
Proof.
  destruct t as [pair [] price amt]; unfold applyTrade, executeTrade; simpl.
  - destruct (Qlt_bool (balance p) (price * amt)); simpl; lia.
  - destruct (positions p !! pair) as [pos|]; simpl; [|lia].
    destruct (Qlt_bool (amount pos) amt); simpl; lia.
Qed.

(** X4.  Over any sequence of [executeTrade] calls, totalTrades grows by
    the number of SELLs the risk manager accepted, and by nothing else: a
    BUY and a rejected SELL leave it unchanged. *)
Theorem X4_totalTrades_counts_sells (ts : list Trade) : forall p,
  totalTrades (runTrades p ts) = (totalTrades p + acceptedSells p ts)%nat.
Proof.
  unfold runTrades.
  induction ts as [|t rest IH]; intros p; cbn [fold_left acceptedSells]; [lia|].
  rewrite IH, applyTrade_totalTrades. lia.
Qed.

(** ** A BUY undone by a SELL *)

(** X5.  On a pair with no position, a BUY of a positive amount that the
    balance covers, followed by a SELL of the same amount at the same
    price, both succeed and give back the balance and the positions map
    of before: the SELL leaves an amount of 0 and deletes the entry.  The
    SELL counts as one more trade, and winningTrades grows by at most
    one.  (Whether it grows, and the sign of the realized pnl, is left
    open: it turns on the rounding of avgEntryPrice in the source.) *)
Theorem X5_buy_then_sell_round_trip p (pair : string) (price amt : Q) :
  positions p !! pair = None -> 0 < amt -> price * amt <= balance p ->
  let b := executeTrade p pair BUY price amt in
  let s := executeTrade b.2 pair SELL price amt in
  b.1 = true /\ s.1 = true /\
  balance s.2 == balance p /\
  positions s.2 = positions p /\
  totalTrades s.2 = S (totalTrades p) /\
  (winningTrades p <= winningTrades s.2 <= S (winningTrades p))%nat.
Proof.
  intros Hnone Hamt Hcost b s. unfold s, b, executeTrade.
  case_lt (balance p) (price * amt) Hlt; [lra|]. cbn [fst snd positions].
  rewrite lookup_insert_eq, Hnone. cbn [default amount avgEntryPrice].
  case_lt (0 + amt) amt Hheld; [lra|].
  case_le (0 + amt - amt) 0.000001 Heps; [|lra].
  cbn [fst snd balance positions totalTrades winningTrades].
  split; [reflexivity|]. split; [reflexivity|]. split; [lra|].
  split; [now apply delete_insert_id|]. split; [reflexivity|].
  destruct (Qlt_bool 0 _); lia.
Qed.

Lemma X5_witness :
  let b := executeTrade initial "BTC/USDT" BUY 50000 1 in
  let s := executeTrade b.2 "BTC/USDT" SELL 50000 1 in
  b.1 = true /\ s.1 = true /\
  balance s.2 == balance initial /\
  positions s.2 = positions initial /\
  totalTrades s.2 = S (totalTrades initial) /\
  (winningTrades initial <= winningTrades s.2 <= S (winningTrades initial))%nat.
Proof.
  apply (X5_buy_then_sell_round_trip initial "BTC/USDT" 50000 1).
  - reflexivity.
  - vm_compute; reflexivity.
  - vm_compute; discriminate.
Defined.

(** ** The circuit breaker *)

Lemma Qle_div_iff (a b c : Q) : 0 < c -> (a <= b / c <-> a * c <= b).
Proof.
  intros Hc. split.
  - intros H. assert (b == b / c * c) as Hb by (field; lra).
    rewrite Hb. nra.
  - now apply Qle_shift_div_l.
Qed.

(** X6.  With a positive initialBalance, [shouldShutdown] called right
    after [updatePrices] returns true exactly when the equity just
    computed is at most 90% of initialBalance. *)
Theorem X6_shutdown_iff p (md : gmap string Q) :
  0 < initialBalance p ->
  (shouldShutdown (updatePrices p md) = true
   <-> currentEquity p md <= 0.9 * initialBalance p).
Proof.
  intros Hinit. unfold shouldShutdown, maxDrawdownLimit. simpl.
  rewrite Qle_bool_iff.
  destruct (Math_max_spec (initialBalance p) (currentEquity p md)) as (H1 & H2 & H3).
  set (equity := currentEquity p md) in *.
  set (peak := Math_max (initialBalance p) equity) in *.
  rewrite Qle_div_iff by lra.
  destruct H3 as [E|E]; rewrite E in *; split; intros H; lra.
Qed.

Lemma X6_witness :
  shouldShutdown (updatePrices holdingBTC ∅) = true
  <-> currentEquity holdingBTC ∅ <= 0.9 * initialBalance holdingBTC.
Proof.
  apply (X6_shutdown_iff holdingBTC ∅). vm_compute; reflexivity.
Defined.

(** X7.  [updatePrices] is idempotent: a second call with the same
    snapshot changes nothing. *)
Theorem X7_updatePrices_idempotent p (md : gmap string Q) :
  updatePrices (updatePrices p md) md = updatePrices p md.
Proof.
  assert (currentEquity (updatePrices p md) md = currentEquity p md) as He
    by reflexivity.
  unfold updatePrices at 1. rewrite He.
  unfold updatePrices. simpl. f_equal.
  match goal with
  | |- context [Qlt_bool (maxDrawdown p) ?d] => set (dd := d)
  end.
  case_lt (maxDrawdown p) dd H1.
  - case_lt dd dd H2; [lra | reflexivity].
  - case_lt (maxDrawdown p) dd H2; [lra | reflexivity].
Qed.

(** What a reachable portfolio satisfies besides [ledgerInv]. *)
Lemma applyOp_maxDrawdown_inv p op :
  validOp op -> ledgerInv p ->
  drawdown p <= maxDrawdown p /\ maxDrawdown p <= 1 ->
  drawdown (applyOp p op) <= maxDrawdown (applyOp p op) /\
  maxDrawdown (applyOp p op) <= 1.
Proof.
  intros Hop Hinv [Hd Hm].
  pose proof (applyOp_ledgerInv p op Hop Hinv) as (_ & _ & _ & _ & Hdd1).
  destruct op as [t|md]; simpl in *.
  - destruct (applyTrade_frame p t) as (_ & -> & ->). auto.
  - match goal with |- context [Qlt_bool ?a ?b] => case_lt a b H end; lra.
Qed.

(** X8.  In every portfolio reached from the initial one by
    [executeTrade] calls with non-negative prices and amounts and
    [updatePrices] calls with non-negative last prices, maxDrawdown is at
    least the current drawdown and at most 1. *)
Theorem X8_drawdown_below_maxDrawdown (ops : list Op) :
  Forall validOp ops ->
  let p := runOps initial ops in
  drawdown p <= maxDrawdown p /\ maxDrawdown p <= 1.
Proof.
  intros Hops.
  assert (forall p, ledgerInv p ->
            drawdown p <= maxDrawdown p /\ maxDrawdown p <= 1 ->
            let q := runOps p ops in
            drawdown q <= maxDrawdown q /\ maxDrawdown q <= 1) as Hgen.
  { induction Hops as [|op ops Hop _ IH]; intros p Hinv Hp; [exact Hp|].
    simpl. apply IH.
    - now apply applyOp_ledgerInv.
    - now apply applyOp_maxDrawdown_inv. }
  apply Hgen; [apply initial_ledgerInv | simpl; lra].
Qed.

Lemma X8_witness :
  let p := runOps initial sampleOps in
  drawdown p <= maxDrawdown p /\ maxDrawdown p <= 1.
Proof.
  exact (X8_drawdown_below_maxDrawdown sampleOps sampleOps_valid).
Defined.

(** ** Rebalance orders *)

Lemma Qlt_div_iff (a b c : Q) : 0 < c -> (a < b / c <-> a * c < b).
Proof.
  intros Hc. split.
  - intros H. assert (b == b / c * c) as Hb by (field; lra).
    rewrite Hb. nra.
  - now apply Qlt_shift_div_l.
Qed.

Lemma lastPrice_pos md pair price :
  nonNegPrices md -> lastPrice md pair = Some price -> 0 < price.
Proof.
  intros Hmd Hprice. pose proof (lastPrice_nonneg md pair price Hmd Hprice) as Hnn.
  unfold lastPrice in Hprice.
  destruct (md !! pair) as [l|]; [|discriminate].
  destruct (truthy l) eqn:Ht; [|discriminate]. injection Hprice as <-.
  unfold truthy in Ht. apply negb_true_iff in Ht.
  destruct (Qeq_dec l 0) as [E|E]; [|lra].
  apply Qeq_bool_iff in E. congruence.
Qed.

Section RebalanceOrders.

Context (p : Portfolio) (md : gmap string Q).
Hypothesis equity_pos : 0 < currentEquity p md.
Hypothesis targets_nonneg : nonNegTargets p.
Hypothesis prices_nonneg : nonNegPrices md.

(** What [planned] gives once the quotients are cleared. *)
Lemma planned_cases o :
  planned p md o ->
  exists pair targetPct price,
    (pair, targetPct) ∈ targetAllocations p /\
    0 < price /\ 0 <= currentEquity p md * targetPct /\
    ((currentEquity p md * targetPct < valueAt p pair price /\
      o = {| o_pair := pair; o_action := SELL;
             o_amount := (valueAt p pair price - currentEquity p md * targetPct)
                         / price;
             o_price := price |}) \/
     (valueAt p pair price < currentEquity p md * targetPct /\
      currentEquity p md * targetPct - valueAt p pair price <= balance p /\
      o = {| o_pair := pair; o_action := BUY;
             o_amount := (currentEquity p md * targetPct - valueAt p pair price)
                         / price;
             o_price := price |})).
Proof.
  intros (pair & targetPct & price & Hin & Hprice & Hdev & Hcase).
  exists pair, targetPct, price. split; [exact Hin|].
  split; [now apply (lastPrice_pos md pair)|].
  assert (0 <= targetPct) as Hpct.
  { unfold nonNegTargets in targets_nonneg.
    rewrite Forall_forall in targets_nonneg. exact (targets_nonneg _ Hin). }
  split; [nra|].
  apply Qlt_div_iff in Hdev; [|exact equity_pos].
  destruct Hcase as [(Hgt & Ho) | (Hle & Hbal & Ho)]; [left; auto|].
  right. split; [|auto].
  rewrite Qabs_neg in Hdev by lra. lra.
Qed.

Lemma checkRebalance_planned o : o ∈ checkRebalance p md -> planned p md o.
Proof.
  unfold checkRebalance. rewrite list_elem_of_omap.
  intros (entry & Hin & Ho). now apply (rebalanceEntry_planned p md entry).
Qed.

(** X9.  With a positive equity, non-negative target fractions and
    non-negative snapshot prices, every order [checkRebalance] returns
    has a positive price and a positive amount; a SELL order never asks
    for more than the position holds and a BUY order never costs more
    than the balance; so each order, executed first and at its own price,
    is accepted by [executeTrade]. *)
Theorem X9_rebalance_orders_feasible (o : RebalanceTrade) :
  o ∈ checkRebalance p md ->
  0 < o_price o /\ 0 < o_amount o /\
  match o_action o with
  | SELL => exists pos, positions p !! o_pair o = Some pos /\
                        o_amount o <= amount pos
  | BUY => o_price o * o_amount o <= balance p
  end /\
  (executeTrade p (o_pair o) (o_action o) (o_price o) (o_amount o)).1 = true.
Proof.
  intros Hin. apply checkRebalance_planned, planned_cases in Hin.
  destruct Hin as (pair & targetPct & price & _ & Hprice & Htv & Hcase).
  set (tv := currentEquity p md * targetPct) in *.
  destruct Hcase as [(Hgt & ->) | (Hlt & Hbal & ->)];
    cbn [o_pair o_action o_amount o_price].
  - unfold valueAt in *. destruct (positions p !! pair) as [pos|] eqn:Hpos; [|lra].
    assert ((amount pos * price - tv) / price <= amount pos) as Hle.
    { apply Qle_shift_div_r; lra. }
    split; [exact Hprice|]. split; [apply Qlt_shift_div_l; lra|].
    split; [exists pos; auto|].
    unfold executeTrade. rewrite Hpos.
    case_lt (amount pos) ((amount pos * price - tv) / price) H; [lra | reflexivity].
  - assert (price * ((tv - valueAt p pair price) / price)
            == tv - valueAt p pair price) as Hcost by (field; lra).
    split; [exact Hprice|]. split; [apply Qlt_shift_div_l; lra|].
    split; [lra|].
    unfold executeTrade.
    case_lt (balance p) (price * ((tv - valueAt p pair price) / price)) H;
      [lra | reflexivity].
Qed.

(** X10.  Under the same hypotheses, executing an order of
    [checkRebalance] at its own price brings the position to its target:
    if the pair is held after the trade, its amount times the order's
    price is the current equity times the target fraction of the pair. *)
Theorem X10_rebalance_order_reaches_target (o : RebalanceTrade) :
  o ∈ checkRebalance p md ->
  exists targetPct,
    (o_pair o, targetPct) ∈ targetAllocations p /\
    let p' := (executeTrade p (o_pair o) (o_action o) (o_price o) (o_amount o)).2 in
    forall pos', positions p' !! o_pair o = Some pos' ->
                 amount pos' * o_price o == currentEquity p md * targetPct.
Proof.
  intros Hin. apply checkRebalance_planned, planned_cases in Hin.
  destruct Hin as (pair & targetPct & price & Hin & Hprice & Htv & Hcase).
  exists targetPct.
  set (tv := currentEquity p md * targetPct) in *.
  destruct Hcase as [(Hgt & ->) | (Hlt & Hbal & ->)];
    cbn [o_pair o_action o_amount o_price];
    (split; [exact Hin|]); intros pos'; unfold executeTrade.
  - unfold valueAt in *. destruct (positions p !! pair) as [pos|] eqn:Hpos; [|lra].
    case_lt (amount pos) ((amount pos * price - tv) / price) H.
    + cbn [snd]. rewrite Hpos. intros [= <-].
      assert ((amount pos * price - tv) / price <= amount pos)
        by (apply Qle_shift_div_r; lra). lra.
    + cbn [snd positions]. destruct (Qle_bool _ 0.000001).
      * rewrite lookup_delete_eq. discriminate.
      * rewrite lookup_insert_eq. intros [= <-]. cbn [amount]. field. lra.
  - case_lt (balance p) (price * ((tv - valueAt p pair price) / price)) H.
    + assert (price * ((tv - valueAt p pair price) / price)
              == tv - valueAt p pair price) by (field; lra). lra.
    + cbn [snd positions]. rewrite lookup_insert_eq. intros [= <-]. cbn [amount].
      unfold valueAt. destruct (positions p !! pair) as [pos|];
        cbn [default amount]; unfold id; field; lra.
Qed.

End RebalanceOrders.

Lemma underweight_hypotheses :
  0 < currentEquity underweightBTC sampleSnapshot /\
  nonNegTargets underweightBTC /\ nonNegPrices sampleSnapshot /\
  underweightOrder ∈ checkRebalance underweightBTC sampleSnapshot.
Proof.
  split; [vm_compute; reflexivity|].
  split; [repeat constructor; vm_compute; discriminate|].
  split.
  - apply map_Forall_insert_2; [vm_compute; discriminate | apply map_Forall_empty].
  - assert (checkRebalance underweightBTC sampleSnapshot = [underweightOrder]) as ->
      by (vm_compute; reflexivity).
    apply list_elem_of_here.
Defined.

Lemma X9_witness :
  0 < o_price underweightOrder /\ 0 < o_amount underweightOrder /\
  match o_action underweightOrder with
  | SELL => exists pos, positions underweightBTC !! o_pair underweightOrder = Some pos /\
                        o_amount underweightOrder <= amount pos
  | BUY => o_price underweightOrder * o_amount underweightOrder
           <= balance underweightBTC
  end /\
  (executeTrade underweightBTC (o_pair underweightOrder)
     (o_action underweightOrder) (o_price underweightOrder)
     (o_amount underweightOrder)).1 = true.
Proof.
  destruct underweight_hypotheses as (H1 & H2 & H3 & H4).
  exact (X9_rebalance_orders_feasible underweightBTC sampleSnapshot H1 H2 H3
           underweightOrder H4).
Defined.

Lemma X10_witness :
  exists targetPct,
    (o_pair underweightOrder, targetPct) ∈ targetAllocations underweightBTC /\
    let p' := (executeTrade underweightBTC (o_pair underweightOrder)
                 (o_action underweightOrder) (o_price underweightOrder)
                 (o_amount underweightOrder)).2 in
    forall pos', positions p' !! o_pair underweightOrder = Some pos' ->
                 amount pos' * o_price underweightOrder
                 == currentEquity underweightBTC sampleSnapshot * targetPct.
Proof.
  destruct underweight_hypotheses as (H1 & H2 & H3 & H4).
  exact (X10_rebalance_order_reaches_target underweightBTC sampleSnapshot H1 H2 H3
           underweightOrder H4).
Defined.

(** ** Bounded buffers *)

Lemma sliceLast_all {A} (k : nat) (l : list A) :
  (length l <= k)%nat -> sliceLast k l = l.
Proof.
  intros H. unfold sliceLast. replace (length l - k)%nat with O by lia.
  reflexivity.
Qed.

Lemma sliceLast_length {A} (k : nat) (l : list A) :
  length (sliceLast k l) = Nat.min k (length l).
Proof. unfold sliceLast. rewrite length_drop. lia. Qed.

Lemma tail_drop {A} (n : nat) (l : list A) : tail (drop n l) = drop (S n) l.
Proof.
  revert l. induction n as [|n IH]; intros [|x l]; simpl; auto.
Qed.

(** Pushing onto a buffer that holds the last [k] elements and dropping
    the head when it overflows gives the last [k] elements again. *)
Lemma sliceLast_push {A} (k : nat) (l : list A) (x : A) :
  (0 < k)%nat ->
  (let pushed := sliceLast k l ++ [x] in
   if (k <? length pushed)%nat then tail pushed else pushed)
  = sliceLast k (l ++ [x]).
Proof.
  intros Hk. cbv zeta. rewrite length_app, sliceLast_length. simpl.
  unfold sliceLast. rewrite length_app. simpl.
  destruct (Nat.ltb_spec k (Nat.min k (length l) + 1)) as [H|H].
  - assert (k <= length l)%nat as Hle by lia.
    replace (length l + 1 - k)%nat with (S (length l - k)) by lia.
    rewrite drop_app_le by lia. rewrite <- tail_drop.
    destruct (drop (length l - k) l) eqn:Hd.
    + apply (f_equal length) in Hd. rewrite length_drop in Hd. simpl in Hd. lia.
    + reflexivity.
  - replace (length l - k)%nat with O by lia.
    replace (length l + 1 - k)%nat with O by lia. reflexivity.
Qed.

Lemma applySend_sliceLast (sent : list Send) (c : Send) :
  applySend (sliceLast 100 (alertOf <$> sent)) c
  = sliceLast 100 (alertOf <$> (sent ++ [c])).
Proof.
  rewrite fmap_app. simpl.
  rewrite <- (sliceLast_push 100 (alertOf <$> sent) (alertOf c)) by lia.
  reflexivity.
Qed.

(** X11.  After any sequence of [sendAlert] calls on an alert manager
    that starts empty, the stored alerts are the alerts of the last 100
    calls, in the order the calls were made: never more than 100, all of
    them while there are at most 100, and the newest always last. *)
Theorem X11_alerts_are_last_100 (sent : list Send) :
  let alerts := fold_left applySend sent [] in
  AlertManager.getRecentAlerts alerts = sliceLast 100 (alertOf <$> sent) /\
  length alerts = Nat.min 100 (length sent) /\
  (forall c, last (applySend alerts c) = Some (alertOf c)).
Proof.
  assert (fold_left applySend sent [] = sliceLast 100 (alertOf <$> sent)) as E.
  { induction sent as [|c sent IH] using rev_ind; [reflexivity|].
    rewrite fold_left_app. simpl. rewrite IH. apply applySend_sliceLast. }
  intros alerts. unfold alerts. rewrite E.
  split; [reflexivity|].
  split; [rewrite sliceLast_length, length_fmap; reflexivity|].
  intros c. rewrite applySend_sliceLast.
  unfold sliceLast. rewrite fmap_app, length_app. simpl.
  rewrite drop_app_le by lia.
  now rewrite last_snoc.
Qed.

(** ** The trade log as a window on the history *)

Lemma applyCall_logs_entryOf e c :
  TradingEngine.logs (applyCall e c) =
    (let pushed := TradingEngine.logs e ++ [entryOf e c] in
     if (1000 <? length pushed)%nat then tail pushed else pushed).
Proof.
  unfold applyCall, TradingEngine.executeTrade, entryOf. cbv zeta.
  now destruct (executeTrade _ _ _ _ _).
Qed.

Lemma runCalls_window cs : forall e hist,
  TradingEngine.logs e = sliceLast 1000 hist ->
  TradingEngine.logs (runCalls e cs) = sliceLast 1000 (hist ++ history e cs).
Proof.
  induction cs as [|c rest IH]; intros e hist He; simpl.
  - now rewrite app_nil_r.
  - rewrite (IH (applyCall e c) (hist ++ [entryOf e c])).
    + now rewrite <- app_assoc.
    + rewrite applyCall_logs_entryOf, He. apply sliceLast_push. lia.
Qed.

Lemma history_length cs : forall e, length (history e cs) = length cs.
Proof.
  induction cs as [|c rest IH]; intros e; simpl; [reflexivity|].
  now rewrite IH.
Qed.

(** X12.  After any sequence of engine [executeTrade] calls from the
    initial engine, the trade log is the window of the last 1000 entries
    of the full history of entries built, one per call, in the order of
    the calls; it holds min(1000, number of calls) entries. *)
Theorem X12_logs_are_last_1000 (cs : list Call) :
  let e := runCalls TradingEngine.initial cs in
  TradingEngine.logs e = sliceLast 1000 (history TradingEngine.initial cs) /\
  length (history TradingEngine.initial cs) = length cs /\
  length (TradingEngine.logs e) = Nat.min 1000 (length cs).
Proof.
  intros e.
  assert (TradingEngine.logs e
          = sliceLast 1000 (history TradingEngine.initial cs)) as E.
  { unfold e. now rewrite (runCalls_window cs TradingEngine.initial []). }
  split; [exact E|]. split; [apply history_length|].
  now rewrite E, sliceLast_length, history_length.
Qed.

Lemma sliceLast_sliceLast {A} (k m : nat) (l : list A) :
  (k <= m)%nat -> sliceLast k (sliceLast m l) = sliceLast k l.
Proof.
  intros Hkm. unfold sliceLast. rewrite length_drop, drop_drop. f_equal. lia.
Qed.

(** X13.  What the engine shows of its log is always the newest part of
    the history, in order: [getLogs] returns the entries of the last 100
    calls, the broadcast state carries those of the last 10 and the
    initial state sent to a new client those of the last 50. *)
Theorem X13_log_views (cs : list Call) :
  let e := runCalls TradingEngine.initial cs in
  let hist := history TradingEngine.initial cs in
  TradingEngine.getLogs e = sliceLast 100 hist /\
  Scheduler.broadcastLogs e = sliceLast 10 hist /\
  Scheduler.initialStateLogs e = sliceLast 50 hist.
Proof.
  intros e hist.
  assert (TradingEngine.logs e = sliceLast 1000 hist) as E.
  { unfold e, hist. now rewrite (runCalls_window cs TradingEngine.initial []). }
  assert (TradingEngine.getLogs e = sliceLast 100 hist) as G.
  { change (TradingEngine.getLogs e) with (sliceLast 100 (TradingEngine.logs e)).
    rewrite E. apply sliceLast_sliceLast. lia. }
  split; [exact G|].
  unfold Scheduler.broadcastLogs, Scheduler.initialStateLogs. rewrite G.
  split; apply sliceLast_sliceLast; lia.
Qed.

(** ** Ticks *)

Lemma executedPrice_nonneg type price random :
  0 <= price -> 0 <= random -> random <= 1 ->
  0 <= TradingEngine.executedPrice type price random.
Proof.
  intros Hp H0 H1. unfold TradingEngine.executedPrice. destruct type; nra.
Qed.

Lemma tradeWith_engineInv e d pair type price amt :
  engineInv e -> 0 <= price -> 0 <= amt -> validDraw d ->
  engineInv (Scheduler.tradeWith e d pair type price amt).
Proof.
  intros [Hinv Hlen] Hp Ha [H0 H1].
  change (Scheduler.tradeWith e d pair type price amt)
    with (applyCall e (callOf d pair type price amt)).
  split.
  - rewrite applyCall_riskManager.
    apply (applyOp_ledgerInv (TradingEngine.riskManager e)
             (OpTrade {| t_pair := pair; t_type := type;
                         t_price := TradingEngine.executedPrice type price
                                      (Scheduler.d_random d);
                         t_amount := amt |})); [|exact Hinv].
    split; simpl; [now apply executedPrice_nonneg | exact Ha].
  - rewrite applyCall_length by exact Hlen. lia.
Qed.

Lemma checkRebalance_nonneg p md o :
  nonNegPrices md -> o ∈ checkRebalance p md ->
  0 < o_price o /\ 0 <= o_amount o.
Proof.
  intros Hmd Hin. apply checkRebalance_planned in Hin.
  destruct Hin as (pair & targetPct & price & _ & Hprice & _ & Hcase).
  apply (lastPrice_pos md pair price Hmd) in Hprice.
  destruct Hcase as [(Hgt & ->) | (Hle & _ & ->)]; simpl;
    (split; [exact Hprice|]); apply Qle_shift_div_l; lra.
Qed.

Lemma executeRebalance_engineInv draws orders : forall i e,
  (forall k, validDraw (draws k)) ->
  Forall (fun o => 0 < o_price o /\ 0 <= o_amount o) orders ->
  engineInv e -> engineInv (Scheduler.executeRebalance draws i e orders).
Proof.
  induction orders as [|o rest IH]; intros i e Hd Hall He; [exact He|].
  inversion Hall as [|? ? [Hp Ha] Hrest]; subst. simpl.
  apply IH; [exact Hd | exact Hrest|].
  apply tradeWith_engineInv; auto. lra.
Qed.

Lemma executeSignal_engineInv e signal d :
  0 < MLPredictor.price signal -> validDraw d ->
  engineInv e -> engineInv (Scheduler.executeSignal e signal d).
Proof.
  intros Hp Hd He. unfold Scheduler.executeSignal.
  destruct (MLPredictor.action signal) as [side|]; [|exact He].
  destruct (Qlt_bool 0.85 _); [|exact He].
  match goal with |- context [Qlt_bool 0 ?a] => case_lt 0 a Hamt end;
    [|exact He].
  apply tradeWith_engineInv; auto; lra.
Qed.

Lemma executeSignals_engineInv signals : forall e,
  Forall (fun sd => 0 < MLPredictor.price sd.1 /\ validDraw sd.2) signals ->
  engineInv e -> engineInv (Scheduler.executeSignals e signals).
Proof.
  unfold Scheduler.executeSignals.
  induction signals as [|[signal d] rest IH]; intros e Hall He; [exact He|].
  inversion Hall as [|? ? [Hp Hd] Hrest]; subst. simpl.
  apply IH; [exact Hrest|]. now apply executeSignal_engineInv.
Qed.

Lemma applyTick_engineInv s i :
  validTick i -> engineInv (Scheduler.engine s) ->
  engineInv (Scheduler.engine (applyTick s i)).
Proof.
  intros (Hmd & Hrd & Hsig) [Hinv Hlen]. unfold applyTick, Scheduler.tick.
  destruct (Scheduler.isRunning s); simpl; [|now split].
  assert (ledgerInv (updatePrices (TradingEngine.riskManager (Scheduler.engine s))
                       (ti_marketData i))) as Hval.
  { exact (applyOp_ledgerInv _ (OpPrices (ti_marketData i)) Hmd Hinv). }
  destruct (shouldShutdown _); simpl; [now split|].
  apply executeSignals_engineInv; [exact Hsig|].
  apply executeRebalance_engineInv; [exact Hrd | | now split].
  apply Forall_forall. intros o Ho.
  exact (checkRebalance_nonneg _ _ o Hmd Ho).
Qed.

(** X14.  After any number of ticks of a started engine, each with
    non-negative snapshot prices, signals at positive prices and slippage
    draws in [0, 1], the balance is not negative, no held amount is
    negative, drawdown lies in [0, 1] and the log holds at most 1000
    entries. *)
Theorem X14_ticks_keep_ledger_sound (inputs : list TickInput) :
  Forall validTick inputs ->
  let s := runTicks (Scheduler.start Scheduler.initial) inputs in
  let p := TradingEngine.riskManager (Scheduler.engine s) in
  0 <= balance p /\
  map_Forall (fun _ pos => 0 <= amount pos) (positions p) /\
  0 <= drawdown p /\ drawdown p <= 1 /\
  (length (TradingEngine.logs (Scheduler.engine s)) <= 1000)%nat.
Proof.
  intros Hall.
  assert (forall s, engineInv (Scheduler.engine s) ->
                    engineInv (Scheduler.engine (runTicks s inputs))) as Hgen.
  { induction Hall as [|i inputs Hi _ IH]; intros s Hs; [exact Hs|].
    simpl. apply IH. now apply applyTick_engineInv. }
  destruct (Hgen (Scheduler.start Scheduler.initial)) as [(Hb & Hpos & _ & Hd) Hlen].
  { split; [apply initial_ledgerInv | simpl; lia]. }
  intros s p. repeat split; tauto.
Qed.

Lemma sampleTick_valid : validTick sampleTick.
Proof.
  split; [|split].
  - apply map_Forall_insert_2; [vm_compute; discriminate | apply map_Forall_empty].
  - intros k. split; vm_compute; discriminate.
  - constructor; [|constructor].
    split; [vm_compute; reflexivity|]. split; vm_compute; discriminate.
Defined.

Lemma X14_witness :
  let s := runTicks (Scheduler.start Scheduler.initial) [sampleTick; sampleTick] in
  let p := TradingEngine.riskManager (Scheduler.engine s) in
  0 <= balance p /\
  map_Forall (fun _ pos => 0 <= amount pos) (positions p) /\
  0 <= drawdown p /\ drawdown p <= 1 /\
  (length (TradingEngine.logs (Scheduler.engine s)) <= 1000)%nat.
Proof.
  apply (X14_ticks_keep_ledger_sound [sampleTick; sampleTick]).
  constructor; [apply sampleTick_valid|].
  constructor; [apply sampleTick_valid | constructor].
Defined.

Example sampleTick_trades :
  let s := applyTick (Scheduler.start Scheduler.initial) sampleTick in
  Scheduler.isRunning s = true /\
  (TradingEngine.type <$> TradingEngine.logs (Scheduler.engine s)) = [BUY; BUY] /\
  (TradingEngine.pair <$> TradingEngine.logs (Scheduler.engine s))
    = ["BTC/USDT"; "BTC/USDT"] /\
  (TradingEngine.status <$> TradingEngine.logs (Scheduler.engine s))
    = [TradingEngine.EXECUTED; TradingEngine.EXECUTED].
Proof. repeat split; vm_compute; reflexivity. Qed.

(** X15.  When a running engine ticks and the valuation trips the
    circuit breaker, the tick halts the engine without trading: the
    portfolio is the one [updatePrices] left, the log is untouched, and
    every later tick, whatever its inputs, changes nothing until the
    engine is started again. *)
Theorem X15_tick_circuit_breaker (s : Scheduler.State) (i : TickInput)
    (later : list TickInput) :
  Scheduler.isRunning s = true ->
  shouldShutdown
    (updatePrices (TradingEngine.riskManager (Scheduler.engine s))
       (ti_marketData i)) = true ->
  let s' := applyTick s i in
  Scheduler.isRunning s' = false /\
  TradingEngine.riskManager (Scheduler.engine s')
    = updatePrices (TradingEngine.riskManager (Scheduler.engine s))
        (ti_marketData i) /\
  TradingEngine.logs (Scheduler.engine s')
    = TradingEngine.logs (Scheduler.engine s) /\
  runTicks s' later = s'.
Proof.
  intros Hrun Htrip s'.
  assert (s' = Scheduler.stop
                 {| Scheduler.engine :=
                      {| TradingEngine.riskManager :=
                           updatePrices
                             (TradingEngine.riskManager (Scheduler.engine s))
                             (ti_marketData i);
                         TradingEngine.logs :=
                           TradingEngine.logs (Scheduler.engine s) |};
                    Scheduler.isRunning := true |}) as E.
  { unfold s', applyTick, Scheduler.tick. rewrite Hrun. cbn [negb].
    cbv zeta. cbn [TradingEngine.riskManager]. now rewrite Htrip. }
  rewrite E. repeat split.
  induction later as [|j later IH]; [reflexivity|].
  simpl. exact IH.
Qed.

Lemma X15_witness :
  let s' := applyTick runningHoldingBTC
              {| ti_marketData := crashSnapshot;
                 ti_rebalanceDraws := fun _ => sampleDraw;
                 ti_signals := [(buySignal, sampleDraw)] |} in
  Scheduler.isRunning s' = false /\
  TradingEngine.riskManager (Scheduler.engine s')
    = updatePrices (TradingEngine.riskManager (Scheduler.engine runningHoldingBTC))
        crashSnapshot /\
  TradingEngine.logs (Scheduler.engine s')
    = TradingEngine.logs (Scheduler.engine runningHoldingBTC) /\
  runTicks s' [sampleTick] = s'.
Proof.
  apply (X15_tick_circuit_breaker runningHoldingBTC
           {| ti_marketData := crashSnapshot;
              ti_rebalanceDraws := fun _ => sampleDraw;
              ti_signals := [(buySignal, sampleDraw)] |} [sampleTick]);
    vm_compute; reflexivity.
Defined.

(** ** Signals *)

Lemma Math_min_spec (a b : Q) :
  Math_min a b <= a /\ Math_min a b <= b /\
  (Math_min a b = a \/ Math_min a b = b).
Proof.
  unfold Math_min. case_lt b a H.
  - split; [lra|]. split; [lra|]. now right.
  - split; [lra|]. split; [lra|]. now left.
Qed.

(** Closes the order and action goals left by the case analysis of a
    signal. *)
Ltac signal_goal :=
  intros;
  repeat match goal with
         | H : _ /\ _ |- _ => destruct H
         | H : _ \/ _ |- _ => destruct H
         end;
  first [ lra | nra | discriminate | congruence | left; lra | right; lra ].

(** X16.  For the signal [generateSignals] builds from a combined score
    (technical factor plus 0.3 times the sentiment) and a HOLD draw in
    [0, 1): the action is BUY exactly when the score is above 0.85 and
    SELL exactly when it is below 0.15; the confidence lies in [0, 1],
    and is below 0.8 exactly for a HOLD; and the
    signal passes the engine's test (not HOLD, confidence above 0.85)
    exactly when the score is above 0.9 or below 0.1. *)
Theorem X16_signal_confidence (pair : string)
    (last sentiment technicalFactor holdDraw : Q) :
  0 <= holdDraw -> holdDraw < 1 ->
  let signal := MLPredictor.signalFor pair last sentiment technicalFactor holdDraw in
  let score := technicalFactor + sentiment * 0.3 in
  (MLPredictor.action signal = MLPredictor.Act BUY <-> 0.85 < score) /\
  (MLPredictor.action signal = MLPredictor.Act SELL <-> score < 0.15) /\
  0 <= MLPredictor.confidence signal /\ MLPredictor.confidence signal <= 1 /\
  (MLPredictor.action signal = MLPredictor.HOLD
   <-> MLPredictor.confidence signal < 0.8) /\
  ((MLPredictor.action signal <> MLPredictor.HOLD /\
    0.85 < MLPredictor.confidence signal)
   <-> (0.9 < score \/ score < 0.1)).
Proof.
  intros H0 H1 signal score. unfold signal, MLPredictor.signalFor.
  fold score.
  case_lt 0.85 score Hbuy; [|case_lt score 0.15 Hsell]; simpl.
  - destruct (Math_min_spec 1 (0.80 + (score - 0.85))) as (M1 & M2 & [E|E]);
      rewrite E in *; repeat split; signal_goal.
  - destruct (Math_min_spec 1 (0.80 + (0.15 - score))) as (M1 & M2 & [E|E]);
      rewrite E in *; repeat split; signal_goal.
  - repeat split; signal_goal.
Qed.

Lemma X16_witness :
  let signal := MLPredictor.signalFor "BTC/USDT" 50000 0.5 0.8 0.3 in
  let score := 0.8 + 0.5 * 0.3 in
  (MLPredictor.action signal = MLPredictor.Act BUY <-> 0.85 < score) /\
  (MLPredictor.action signal = MLPredictor.Act SELL <-> score < 0.15) /\
  0 <= MLPredictor.confidence signal /\ MLPredictor.confidence signal <= 1 /\
  (MLPredictor.action signal = MLPredictor.HOLD
   <-> MLPredictor.confidence signal < 0.8) /\
  ((MLPredictor.action signal <> MLPredictor.HOLD /\
    0.85 < MLPredictor.confidence signal)
   <-> (0.9 < score \/ score < 0.1)).
Proof.
  apply (X16_signal_confidence "BTC/USDT" 50000 0.5 0.8 0.3);
    vm_compute; first [reflexivity | discriminate].
Defined.

Lemma applyCall_last e c :
  last (TradingEngine.logs (applyCall e c)) = Some (entryOf e c).
Proof.
  rewrite applyCall_logs_entryOf. cbv zeta.
  destruct (1000 <? _)%nat eqn:Hcap.
  - destruct (TradingEngine.logs e) as [|x l]; [discriminate Hcap|].
    simpl. apply last_snoc.
  - apply last_snoc.
Qed.

(** X17.  When the combined score of a generated signal is above 0.9, the
    balance is positive and the last price is positive, the engine
    executes a BUY for it whatever the slippage draw in [0, 1]: it
    appends an EXECUTED BUY entry on the pair for the amount
    [calculatePositionSize] returns, and more than 84% of the balance is
    left. *)
Theorem X17_strong_buy_signal_executes (e : TradingEngine.Engine)
    (pair : string) (quote sentiment technicalFactor holdDraw : Q)
    (d : Scheduler.Draw) :
  0 < balance (TradingEngine.riskManager e) -> 0 < quote ->
  0.9 < technicalFactor + sentiment * 0.3 -> validDraw d ->
  let signal := MLPredictor.signalFor pair quote sentiment technicalFactor holdDraw in
  let e' := Scheduler.executeSignal e signal d in
  exists entry,
    last (TradingEngine.logs e') = Some entry /\
    TradingEngine.status entry = TradingEngine.EXECUTED /\
    TradingEngine.type entry = BUY /\
    TradingEngine.pair entry = pair /\
    TradingEngine.amount entry
      = calculatePositionSize (TradingEngine.riskManager e) pair quote /\
    balance (TradingEngine.riskManager e) * 0.84
      < balance (TradingEngine.riskManager e').
Proof.
  intros Hb Hquote Hscore [Hd0 Hd1] signal e'.
  set (size := calculatePositionSize (TradingEngine.riskManager e) pair quote).
  pose proof (sized_positive (TradingEngine.riskManager e) pair quote Hb Hquote)
    as Hsize. fold size in Hsize.
  assert (e' = applyCall e (callOf d pair BUY quote size)) as E.
  { unfold e', signal, Scheduler.executeSignal, MLPredictor.signalFor.
    case_lt 0.85 (technicalFactor + sentiment * 0.3) Hbuy; [|lra].
    cbn [MLPredictor.action MLPredictor.confidence MLPredictor.pair
         MLPredictor.price].
    destruct (Math_min_spec 1 (0.80 + (technicalFactor + sentiment * 0.3 - 0.85)))
      as (_ & _ & [Em|Em]); rewrite Em.
    - case_lt 0.85 1 H1; [|lra]. fold size.
      case_lt 0 size H2; [reflexivity | lra].
    - case_lt 0.85 (0.80 + (technicalFactor + sentiment * 0.3 - 0.85)) H1; [|lra].
      fold size. case_lt 0 size H2; [reflexivity | lra]. }
  destruct (sized_buy_accepted (TradingEngine.riskManager e) pair quote
              (Scheduler.d_random d) Hb Hquote Hd0 Hd1) as [Hok Hleft].
  fold size in Hok, Hleft.
  exists (entryOf e (callOf d pair BUY quote size)). rewrite E.
  split; [apply applyCall_last|].
  unfold entryOf. cbn [callOf c_type c_price c_random c_pair c_amount
    TradingEngine.status TradingEngine.type TradingEngine.pair
    TradingEngine.amount].
  rewrite Hok. repeat split.
  rewrite applyCall_riskManager. exact Hleft.
Qed.

Lemma X17_witness :
  let e' := Scheduler.executeSignal TradingEngine.initial buySignal sampleDraw in
  exists entry,
    last (TradingEngine.logs e') = Some entry /\
    TradingEngine.status entry = TradingEngine.EXECUTED /\
    TradingEngine.type entry = BUY /\
    TradingEngine.pair entry = "BTC/USDT" /\
    TradingEngine.amount entry
      = calculatePositionSize (TradingEngine.riskManager TradingEngine.initial)
          "BTC/USDT" 50000 /\
    balance (TradingEngine.riskManager TradingEngine.initial) * 0.84
      < balance (TradingEngine.riskManager e').
Proof.
  apply (X17_strong_buy_signal_executes TradingEngine.initial "BTC/USDT"
           50000 0 0.95 0 sampleDraw).
  - vm_compute; reflexivity.
  - vm_compute; reflexivity.
  - vm_compute; reflexivity.
  - split; vm_compute; discriminate.
Defined.

(** X18.  When the combined score of a generated signal lies in
    [0.1, 0.9], the engine does nothing for it: no trade is tried and no
    log entry is appended, whether the signal is a HOLD, or a BUY or SELL
    whose confidence does not exceed 0.85. *)
Theorem X18_weak_signal_ignored (e : TradingEngine.Engine)
    (pair : string) (quote sentiment technicalFactor holdDraw : Q)
    (d : Scheduler.Draw) :
  0.1 <= technicalFactor + sentiment * 0.3 ->
  technicalFactor + sentiment * 0.3 <= 0.9 ->
  Scheduler.executeSignal e
    (MLPredictor.signalFor pair quote sentiment technicalFactor holdDraw) d = e.
Proof.
  intros Hlo Hhi. unfold Scheduler.executeSignal, MLPredictor.signalFor.
  set (score := technicalFactor + sentiment * 0.3) in *.
  case_lt 0.85 score Hbuy; [|case_lt score 0.15 Hsell];
    cbn [MLPredictor.action MLPredictor.confidence]; [| |reflexivity].
  - destruct (Math_min_spec 1 (0.80 + (score - 0.85))) as (M1 & M2 & _).
    case_lt 0.85 (Math_min 1 (0.80 + (score - 0.85))) H; [lra | reflexivity].
  - destruct (Math_min_spec 1 (0.80 + (0.15 - score))) as (M1 & M2 & _).
    case_lt 0.85 (Math_min 1 (0.80 + (0.15 - score))) H; [lra | reflexivity].
Qed.

Lemma X18_witness :
  Scheduler.executeSignal TradingEngine.initial
    (MLPredictor.signalFor "BTC/USDT" 50000 0 0.88 0.3) sampleDraw
  = TradingEngine.initial.
Proof.
  apply (X18_weak_signal_ignored TradingEngine.initial "BTC/USDT" 50000 0 0.88 0.3
           sampleDraw); vm_compute; discriminate.
Defined.

(** ** Sentiment *)

Lemma clamp_range (x : Q) : -1 <= clamp x /\ clamp x <= 1.
Proof.
  unfold clamp.
  destruct (Math_min_spec 1 x) as (M1 & M2 & _).
  destruct (Math_max_spec (-1) (Math_min 1 x)) as (N1 & N2 & [E|E]);
    rewrite E in *; split; lra.
Qed.

Lemma clamp_step (v d delta : Q) :
  -1 <= v -> v <= 1 -> - delta <= d -> d <= delta ->
  - delta <= clamp (v + d) - v /\ clamp (v + d) - v <= delta.
Proof.
  intros Hv0 Hv1 Hd0 Hd1. unfold clamp.
  destruct (Math_min_spec 1 (v + d)) as (M1 & M2 & [Em|Em]);
    destruct (Math_max_spec (-1) (Math_min 1 (v + d))) as (N1 & N2 & [En|En]);
    rewrite En in *; try rewrite Em in *; split; lra.
Qed.

Lemma fetchLoop_inv ps : forall i random sentiments,
  map_Forall (fun _ v => -1 <= v /\ v <= 1) sentiments ->
  map_Forall (fun _ v => -1 <= v /\ v <= 1)
    (SentimentAnalyzer.fetchLoop ps i random sentiments).
Proof.
  induction ps as [|key rest IH]; intros i random sentiments Hs; [exact Hs|].
  simpl. apply IH. apply map_Forall_insert_2; [|exact Hs].
  apply clamp_range.
Qed.

Lemma fetchLoop_keeps_keys ps key : forall i random sentiments,
  is_Some (sentiments !! key) ->
  is_Some (SentimentAnalyzer.fetchLoop ps i random sentiments !! key).
Proof.
  induction ps as [|k rest IH]; intros i random sentiments Hs; [exact Hs|].
  simpl. apply IH. rewrite lookup_insert_is_Some. destruct (decide (k = key)); auto.
Qed.

Lemma fetchLoop_other ps key : forall i random sentiments,
  key ∉ ps ->
  SentimentAnalyzer.fetchLoop ps i random sentiments !! key = sentiments !! key.
Proof.
  induction ps as [|k rest IH]; intros i random sentiments Hnot; [reflexivity|].
  simpl. apply not_elem_of_cons in Hnot as [Hne Hrest].
  rewrite IH by exact Hrest. now apply lookup_insert_ne.
Qed.

Lemma fetchLoop_at ps key j : forall i random sentiments,
  NoDup ps -> ps !! j = Some key ->
  SentimentAnalyzer.fetchLoop ps i random sentiments !! key
  = Some (clamp (default 0 (sentiments !! key)
                 + (random (i + j)%nat - 0.5) * 0.2)).
Proof.
  revert j. induction ps as [|k rest IH]; intros j i random sentiments Hnd Hj;
    [discriminate|].
  apply NoDup_cons in Hnd as [Hk Hnd]. simpl. destruct j as [|j]; simpl in Hj.
  - injection Hj as ->. rewrite fetchLoop_other by exact Hk.
    rewrite lookup_insert_eq, Nat.add_0_r. reflexivity.
  - assert (k <> key) as Hne.
    { intros ->. apply Hk. now apply list_elem_of_lookup_2 in Hj. }
    rewrite (IH j (S i) random _ Hnd Hj), lookup_insert_ne by exact Hne.
    now replace (S i + j)%nat with (i + S j)%nat by lia.
Qed.

Lemma pairs_NoDup : NoDup SentimentAnalyzer.pairs.
Proof. apply (bool_decide_unpack _). vm_compute. exact I. Qed.

Lemma initial_sentimentInv : sentimentInv SentimentAnalyzer.initial.
Proof.
  split.
  - unfold SentimentAnalyzer.initial. simpl.
    repeat (apply map_Forall_insert_2; [lra|]). apply map_Forall_empty.
  - unfold SentimentAnalyzer.pairs.
    repeat constructor; vm_compute; eauto.
Qed.

Lemma fetchSentiment_sentimentInv sentiments random :
  sentimentInv sentiments ->
  sentimentInv (SentimentAnalyzer.fetchSentiment sentiments random).
Proof.
  intros [Hr Hk]. split.
  - now apply fetchLoop_inv.
  - rewrite Forall_forall in Hk |- *. intros pair Hin.
    apply fetchLoop_keeps_keys. now apply Hk.
Qed.

Lemma runFetches_sentimentInv draws : sentimentInv (runFetches draws).
Proof.
  unfold runFetches.
  induction draws as [|d draws IH] using rev_ind; [apply initial_sentimentInv|].
  rewrite fold_left_app. simpl. now apply fetchSentiment_sentimentInv.
Qed.

Lemma getSentiment_value sentiments pair :
  SentimentAnalyzer.getSentiment sentiments pair
  == default 0 (sentiments !! pair).
Proof.
  unfold SentimentAnalyzer.getSentiment.
  destruct (sentiments !! pair) as [v|]; simpl; [|reflexivity].
  unfold truthy. destruct (Qeq_bool v 0) eqn:E; simpl; [|reflexivity].
  apply Qeq_bool_iff in E. now rewrite E.
Qed.

(** X19.  After the constructor and any number of [fetchSentiment]
    calls, whatever the random draws, each of the five pairs has a
    stored sentiment, and [getSentiment] returns a value in [-1, 1] for
    every pair name (0 for a pair that is not stored). *)
Theorem X19_sentiment_range (draws : list (nat -> Q)) (pair : string) :
  let sentiments := runFetches draws in
  -1 <= SentimentAnalyzer.getSentiment sentiments pair /\
  SentimentAnalyzer.getSentiment sentiments pair <= 1 /\
  (pair ∈ SentimentAnalyzer.pairs -> is_Some (sentiments !! pair)) /\
  (sentiments !! pair = None ->
   SentimentAnalyzer.getSentiment sentiments pair = 0).
Proof.
  intros sentiments. destruct (runFetches_sentimentInv draws) as [Hr Hk].
  fold sentiments in Hr, Hk.
  assert (-1 <= SentimentAnalyzer.getSentiment sentiments pair /\
          SentimentAnalyzer.getSentiment sentiments pair <= 1) as [H0 H1].
  { rewrite getSentiment_value.
    destruct (sentiments !! pair) as [v|] eqn:E; simpl; [|lra].
    exact (Hr pair v E). }
  split; [exact H0|]. split; [exact H1|]. split.
  - intros Hin. rewrite Forall_forall in Hk. now apply Hk.
  - intros E. unfold SentimentAnalyzer.getSentiment. now rewrite E.
Qed.

(** X20.  One call of [fetchSentiment] whose random draws lie in [0, 1]
    moves the sentiment of every pair by at most 0.1, from any state
    reached from the constructor by earlier calls. *)
Theorem X20_sentiment_step (draws : list (nat -> Q)) (random : nat -> Q)
    (pair : string) :
  (forall i, 0 <= random i /\ random i <= 1) ->
  let before := runFetches draws in
  let after := SentimentAnalyzer.fetchSentiment before random in
  Qabs (SentimentAnalyzer.getSentiment after pair
        - SentimentAnalyzer.getSentiment before pair) <= 0.1.
Proof.
  intros Hrandom before after.
  destruct (runFetches_sentimentInv draws) as [Hr Hk]. fold before in Hr, Hk.
  rewrite !getSentiment_value. apply Qabs_Qle_condition.
  destruct (decide (pair ∈ SentimentAnalyzer.pairs)) as [Hin|Hnot].
  - apply list_elem_of_lookup in Hin as [j Hj].
    unfold after, SentimentAnalyzer.fetchSentiment.
    rewrite (fetchLoop_at _ pair j 0 random before pairs_NoDup Hj).
    cbn [default]. unfold id.
    rewrite Forall_forall in Hk.
    destruct (Hk pair (list_elem_of_lookup_2 _ _ _ Hj)) as [v Hv].
    rewrite Hv. cbn [default]. unfold id.
    destruct (Hr pair v Hv) as [Hv0 Hv1].
    destruct (Hrandom (0 + j)%nat) as [H0 H1].
    apply clamp_step; lra.
  - unfold after, SentimentAnalyzer.fetchSentiment.
    rewrite fetchLoop_other by exact Hnot. lra.
Qed.

Lemma X20_witness :
  let before := runFetches sampleFetches in
  let after := SentimentAnalyzer.fetchSentiment before (fun _ => 1) in
  Qabs (SentimentAnalyzer.getSentiment after "ETH/USDT"
        - SentimentAnalyzer.getSentiment before "ETH/USDT") <= 0.1.
Proof.
  apply (X20_sentiment_step sampleFetches (fun _ => 1) "ETH/USDT").
  intros i. split; vm_compute; discriminate.
Defined.

Example sampleFetches_values :
  SentimentAnalyzer.getSentiment (runFetches sampleFetches) "BTC/USDT" == 0.13 /\
  SentimentAnalyzer.getSentiment (runFetches sampleFetches) "ETH/USDT" == -0.07 /\
  SentimentAnalyzer.getSentiment (runFetches sampleFetches) "DOGE/USDT" == 0.
Proof. repeat split; vm_compute; reflexivity. Qed.

(** ** Market data *)

Lemma simulateLoop_other ps key : forall i random now data,
  key ∉ ps ->
  ExchangeConnector.simulateLoop ps i random now data !! key = data !! key.
Proof.
  induction ps as [|k rest IH]; intros i random now data Hnot; [reflexivity|].
  simpl. apply not_elem_of_cons in Hnot as [Hne Hrest].
  rewrite IH by exact Hrest.
  destruct (data !! k); now apply lookup_insert_ne.
Qed.

Lemma simulateLoop_at ps key j : forall i random now data,
  NoDup ps -> ps !! j = Some key ->
  ExchangeConnector.simulateLoop ps i random now data !! key
  = Some match data !! key with
         | Some t =>
             let last' :=
               ExchangeConnector.last t *
               (1 + (random (i + j)%nat * ExchangeConnector.volatility * 2
                     - ExchangeConnector.volatility)) in
             {| ExchangeConnector.last := last';
                ExchangeConnector.bid := last' * 0.9995;
                ExchangeConnector.ask := last' * 1.0005;
                ExchangeConnector.volume := ExchangeConnector.volume t;
                ExchangeConnector.timestamp := now (i + j)%nat |}
         | None =>
             {| ExchangeConnector.last := 50000;
                ExchangeConnector.bid := 49950;
                ExchangeConnector.ask := 50050;
                ExchangeConnector.volume := 100;
                ExchangeConnector.timestamp := now (i + j)%nat |}
         end.
Proof.
  revert j. induction ps as [|k rest IH]; intros j i random now data Hnd Hj;
    [discriminate|].
  apply NoDup_cons in Hnd as [Hk Hnd]. simpl. destruct j as [|j]; simpl in Hj.
  - injection Hj as ->. rewrite simulateLoop_other by exact Hk.
    rewrite Nat.add_0_r. destruct (data !! key); now rewrite lookup_insert_eq.
  - assert (k <> key) as Hne.
    { intros ->. apply Hk. now apply list_elem_of_lookup_2 in Hj. }
    rewrite (IH j (S i) random now _ Hnd Hj).
    replace (S i + j)%nat with (i + S j)%nat by lia.
    destruct (data !! k); now rewrite lookup_insert_ne by exact Hne.
Qed.

Lemma exchange_pairs_NoDup : NoDup ExchangeConnector.pairs.
Proof. apply (bool_decide_unpack _). vm_compute. exact I. Qed.

(** X21.  In a simulated tick (connected, no real fetch) with draws in
    [0, 1], a pair of the exchange's list that has a ticker with a
    positive last price gets a new last price within 0.1% of the old one,
    a bid below it and an ask above it, and keeps its volume. *)
Theorem X21_simulated_tick_moves_within_bounds (s : ExchangeConnector.State)
    (f : Fetch) (pair : string) (t : ExchangeConnector.Ticker) :
  ExchangeConnector.isConnected s = true ->
  0.1 <= f_coin f ->
  (forall i, 0 <= f_random f i /\ f_random f i <= 1) ->
  pair ∈ ExchangeConnector.pairs ->
  ExchangeConnector.latestData s !! pair = Some t ->
  0 < ExchangeConnector.last t ->
  exists t',
    ExchangeConnector.latestData (applyFetch s f) !! pair = Some t' /\
    0.999 * ExchangeConnector.last t <= ExchangeConnector.last t' /\
    ExchangeConnector.last t' <= 1.001 * ExchangeConnector.last t /\
    ExchangeConnector.bid t' < ExchangeConnector.last t' /\
    ExchangeConnector.last t' < ExchangeConnector.ask t' /\
    ExchangeConnector.volume t' = ExchangeConnector.volume t.
Proof.
  intros Hconn Hcoin Hrandom Hin Ht Hpos.
  apply list_elem_of_lookup in Hin as [j Hj].
  unfold applyFetch, ExchangeConnector.fetchMarketData. rewrite Hconn. cbn [negb].
  case_lt (f_coin f) 0.1 Hc; [lra|]. cbn [ExchangeConnector.latestData].
  rewrite (simulateLoop_at _ pair j 0 (f_random f) (f_now f) _
             exchange_pairs_NoDup Hj), Ht.
  eexists. split; [reflexivity|].
  cbn [ExchangeConnector.last ExchangeConnector.bid ExchangeConnector.ask
       ExchangeConnector.volume]. unfold ExchangeConnector.volatility.
  destruct (Hrandom (0 + j)%nat) as [H0 H1].
  repeat split; nra.
Qed.

Lemma X21_witness :
  exists t',
    ExchangeConnector.latestData
      (applyFetch (applyFetch connected (simulatedFetch 0)) (simulatedFetch 0.75))
      !! "SOL/USDT" = Some t' /\
    0.999 * 50000 <= ExchangeConnector.last t' /\
    ExchangeConnector.last t' <= 1.001 * 50000 /\
    ExchangeConnector.bid t' < ExchangeConnector.last t' /\
    ExchangeConnector.last t' < ExchangeConnector.ask t' /\
    ExchangeConnector.volume t' = 100.
Proof.
  apply (X21_simulated_tick_moves_within_bounds
           (applyFetch connected (simulatedFetch 0)) (simulatedFetch 0.75)
           "SOL/USDT"
           {| ExchangeConnector.last := 50000; ExchangeConnector.bid := 49950;
              ExchangeConnector.ask := 50050; ExchangeConnector.volume := 100;
              ExchangeConnector.timestamp := 2 |}).
  - reflexivity.
  - vm_compute; discriminate.
  - intros i. split; vm_compute; discriminate.
  - vm_compute. do 2 right. left.
  - vm_compute; reflexivity.
  - vm_compute; reflexivity.
Defined.

(** X22.  In a simulated tick, a pair of the exchange's list that has no
    ticker yet gets the fallback ticker: last 50000, bid 49950, ask
    50050, volume 100. *)
Theorem X22_simulated_tick_fallback (s : ExchangeConnector.State)
    (f : Fetch) (pair : string) :
  ExchangeConnector.isConnected s = true ->
  0.1 <= f_coin f ->
  pair ∈ ExchangeConnector.pairs ->
  ExchangeConnector.latestData s !! pair = None ->
  exists t',
    ExchangeConnector.latestData (applyFetch s f) !! pair = Some t' /\
    ExchangeConnector.last t' = 50000 /\
    ExchangeConnector.bid t' = 49950 /\
    ExchangeConnector.ask t' = 50050 /\
    ExchangeConnector.volume t' = 100.
Proof.
  intros Hconn Hcoin Hin Hnone.
  apply list_elem_of_lookup in Hin as [j Hj].
  unfold applyFetch, ExchangeConnector.fetchMarketData. rewrite Hconn. cbn [negb].
  case_lt (f_coin f) 0.1 Hc; [lra|]. cbn [ExchangeConnector.latestData].
  rewrite (simulateLoop_at _ pair j 0 (f_random f) (f_now f) _
             exchange_pairs_NoDup Hj), Hnone.
  eexists. split; [reflexivity|]. repeat split.
Qed.

Lemma X22_witness :
  exists t',
    ExchangeConnector.latestData (applyFetch connected (simulatedFetch 0.3))
      !! "XRP/USDT" = Some t' /\
    ExchangeConnector.last t' = 50000 /\
    ExchangeConnector.bid t' = 49950 /\
    ExchangeConnector.ask t' = 50050 /\
    ExchangeConnector.volume t' = 100.
Proof.
  apply (X22_simulated_tick_fallback connected (simulatedFetch 0.3) "XRP/USDT").
  - reflexivity.
  - vm_compute; discriminate.
  - vm_compute. do 4 right. left.
  - reflexivity.
Defined.

Lemma simulateLoop_positive ps : forall i random now data,
  (forall k, 0 <= random k /\ random k <= 1) ->
  positiveLasts data ->
  positiveLasts (ExchangeConnector.simulateLoop ps i random now data).
Proof.
  induction ps as [|key rest IH]; intros i random now data Hr Hd; [exact Hd|].
  simpl. apply IH; [exact Hr|].
  destruct (data !! key) as [t|] eqn:Ht; apply map_Forall_insert_2; try exact Hd.
  - cbn [ExchangeConnector.last]. unfold ExchangeConnector.volatility.
    pose proof (Hd key t Ht) as Hpos. simpl in Hpos.
    destruct (Hr i) as [H0 H1]. nra.
  - cbn [ExchangeConnector.last]. lra.
Qed.

Lemma copyLoop_positive ps : forall i fetched now data,
  map_Forall (fun _ t => 0 < ExchangeConnector.r_last t) fetched ->
  positiveLasts data ->
  positiveLasts (ExchangeConnector.copyLoop ps i fetched now data).
Proof.
  induction ps as [|key rest IH]; intros i fetched now data Hf Hd; [exact Hd|].
  simpl. apply IH; [exact Hf|].
  destruct (fetched !! key) as [t|] eqn:Ht; [|exact Hd].
  apply map_Forall_insert_2; [|exact Hd]. exact (Hf key t Ht).
Qed.

Lemma applyFetch_positive s f :
  validFetch f -> positiveLasts (ExchangeConnector.latestData s) ->
  positiveLasts (ExchangeConnector.latestData (applyFetch s f)).
Proof.
  intros [Hr Ht] Hs. unfold applyFetch, ExchangeConnector.fetchMarketData.
  destruct (ExchangeConnector.isConnected s); cbn [negb]; [|exact Hs].
  destruct (Qlt_bool (f_coin f) 0.1).
  - destruct (f_tickers f) as [fetched|]; [|exact Hs].
    now apply copyLoop_positive.
  - now apply simulateLoop_positive.
Qed.

Lemma applyExchangeOp_positive s op :
  validExchangeOp op -> positiveLasts (ExchangeConnector.latestData s) ->
  positiveLasts (ExchangeConnector.latestData (applyExchangeOp s op)).
Proof.
  destruct op as [f| |f]; simpl; intros Hop Hs.
  - now apply (applyFetch_positive
                 {| ExchangeConnector.latestData := ExchangeConnector.latestData s;
                    ExchangeConnector.isConnected := true |} f).
  - exact Hs.
  - now apply applyFetch_positive.
Qed.

(** X23.  After any sequence of [connect], [disconnect] and
    [fetchMarketData] calls on a new exchange connector, with draws in
    [0, 1] and real tickers whose last prices are positive, every cached
    last price is positive; so the snapshot handed to the risk manager
    has no negative price.  A fetch made while disconnected returns the
    cache as it is. *)
Theorem X23_exchange_prices_positive (ops : list ExchangeOp) :
  Forall validExchangeOp ops ->
  let s := fold_left applyExchangeOp ops ExchangeConnector.initial in
  positiveLasts (ExchangeConnector.latestData s) /\
  nonNegPrices (snapshotOf (ExchangeConnector.latestData s)) /\
  (forall f, ExchangeConnector.isConnected s = false -> applyFetch s f = s).
Proof.
  intros Hops s.
  assert (positiveLasts (ExchangeConnector.latestData s)) as Hpos.
  { unfold s. clear s.
    assert (positiveLasts
              (ExchangeConnector.latestData ExchangeConnector.initial)) as H0
      by apply map_Forall_empty.
    revert H0. generalize ExchangeConnector.initial.
    induction Hops as [|op ops Hop _ IH]; intros s0 H0; [exact H0|].
    simpl. apply IH. now apply applyExchangeOp_positive. }
  split; [exact Hpos|]. split.
  - unfold nonNegPrices, snapshotOf. apply map_Forall_fmap.
    intros k t Ht. simpl. pose proof (Hpos k t Ht) as H. simpl in H. lra.
  - intros f Hoff. unfold applyFetch, ExchangeConnector.fetchMarketData.
    now rewrite Hoff.
Qed.

Lemma sampleExchangeOps_valid : Forall validExchangeOp sampleExchangeOps.
Proof.
  assert (forall r, 0 <= r -> r <= 1 -> validFetch (simulatedFetch r)) as Hsim.
  { intros r H0 H1. split; [intros i; split; assumption | exact I]. }
  constructor; [apply Hsim; vm_compute; discriminate|].
  constructor.
  { split; [intros i; split; vm_compute; discriminate|]. simpl.
    apply map_Forall_insert_2; [vm_compute; reflexivity | apply map_Forall_empty]. }
  constructor; [apply Hsim; vm_compute; discriminate|].
  constructor; [exact I|].
  constructor; [apply Hsim; vm_compute; discriminate | constructor].
Defined.

Lemma X23_witness :
  let s := fold_left applyExchangeOp sampleExchangeOps ExchangeConnector.initial in
  positiveLasts (ExchangeConnector.latestData s) /\
  nonNegPrices (snapshotOf (ExchangeConnector.latestData s)) /\
  (forall f, ExchangeConnector.isConnected s = false -> applyFetch s f = s).
Proof.
  exact (X23_exchange_prices_positive sampleExchangeOps sampleExchangeOps_valid).
Defined.

Example sampleExchangeOps_prices :
  let s := fold_left applyExchangeOp sampleExchangeOps ExchangeConnector.initial in
  ExchangeConnector.isConnected s = false /\
  snapshotOf (ExchangeConnector.latestData s) !! "BTC/USDT" = Some (64000 * (1 + (1 * 0.001 * 2 - 0.001))) /\
  dom (ExchangeConnector.latestData s) = list_to_set ExchangeConnector.pairs.
Proof.
  split; [reflexivity|]. split; [vm_compute; reflexivity|].
  apply (bool_decide_unpack _). vm_compute. exact I.
Qed.

(** ** Trades and equity *)

Lemma sumQ_Permutation (l l' : list Q) : l ≡ₚ l' -> sumQ l == sumQ l'.
Proof.
  induction 1 as [|x l l' _ IH|x y l|l l' l'' _ IH1 _ IH2];
    unfold sumQ in *; simpl; lra.
Qed.

Lemma pricedValue_mark md pair pos :
  pricedValue md (pair, pos) == amount pos * mark md pair.
Proof.
  unfold pricedValue, mark. simpl. destruct (lastPrice md pair); simpl; lra.
Qed.

Lemma heldValue_delete md held pair pos :
  held !! pair = Some pos ->
  heldValue md held == heldValue md (delete pair held) + amount pos * mark md pair.
Proof.
  intros Hpos. unfold heldValue.
  pose proof (sumQ_Permutation _ _
                (fmap_Permutation (pricedValue md) _ _
                   (map_to_list_delete held pair pos Hpos))) as H.
  rewrite fmap_cons in H. unfold sumQ in *. cbn [foldr] in H.
  rewrite pricedValue_mark in H. lra.
Qed.

Lemma heldValue_insert md held pair pos :
  heldValue md (<[pair := pos]> held)
  == heldValue md (delete pair held) + amount pos * mark md pair.
Proof.
  rewrite (heldValue_delete md (<[pair := pos]> held) pair pos)
    by apply lookup_insert_eq.
  now rewrite delete_insert_eq.
Qed.

Lemma currentEquity_heldValue p md :
  currentEquity p md == balance p + heldValue md (positions p).
Proof. apply currentEquity_sum. Qed.

(** X24.  A successful trade changes the equity [updatePrices] computes
    only by the difference between its price and the snapshot's price of
    the pair (0 when the snapshot has none): a BUY at price q lowers the
    equity by (q - mark) * amount and a SELL raises it by
    (q - mark) * amount, so a trade at the snapshot price leaves the
    equity as it was; and a SELL that deletes the position also loses the
    value of the remainder it writes off. *)
Theorem X24_trade_equity p (md : gmap string Q) (pair : string) (q amt : Q) :
  ((executeTrade p pair BUY q amt).1 = true ->
   currentEquity (executeTrade p pair BUY q amt).2 md
   == currentEquity p md - (q - mark md pair) * amt) /\
  (forall pos,
     positions p !! pair = Some pos -> amt <= amount pos ->
     currentEquity (executeTrade p pair SELL q amt).2 md
     == currentEquity p md + (q - mark md pair) * amt
        - writtenOff pos amt * mark md pair).
Proof.
  split.
  - unfold executeTrade.
    destruct (Qlt_bool (balance p) (q * amt)); [discriminate|]. intros _.
    rewrite !currentEquity_heldValue. cbn [snd balance positions].
    rewrite heldValue_insert. cbn [amount].
    destruct (positions p !! pair) as [pos|] eqn:Hpos;
      cbn [default amount]; unfold id.
    + rewrite (heldValue_delete md (positions p) pair pos Hpos). lra.
    + rewrite (delete_id (positions p) pair Hpos). lra.
  - intros pos Hpos Hle. unfold executeTrade, writtenOff, epsilon. rewrite Hpos.
    case_lt (amount pos) amt H; [lra|].
    rewrite !currentEquity_heldValue. cbn [snd balance positions].
    rewrite (heldValue_delete md (positions p) pair pos Hpos).
    destruct (Qle_bool (amount pos - amt) 0.000001).
    + lra.
    + rewrite heldValue_insert. cbn [amount]. lra.
Qed.

Example trade_at_snapshot_price_keeps_equity :
  currentEquity holdingBTC sampleSnapshot == 100000 /\
  currentEquity
    (executeTrade holdingBTC "BTC/USDT" SELL 50000 0.25).2 sampleSnapshot
  == 100000.
Proof. split; vm_compute; reflexivity. Qed.

(** ** Generated signals *)

Lemma signalFor_wellFormed pair quote sentiment technicalFactor holdDraw :
  0 <= holdDraw -> holdDraw < 1 -> -1 <= sentiment -> sentiment <= 1 ->
  ~ quote == 0 ->
  wellFormedSignal
    (MLPredictor.signalFor pair quote sentiment technicalFactor holdDraw).
Proof.
  intros H0 H1 Hs0 Hs1 Hq. unfold wellFormedSignal, MLPredictor.signalFor.
  set (score := technicalFactor + sentiment * 0.3).
  case_lt 0.85 score Hbuy; [|case_lt score 0.15 Hsell]; simpl.
  - destruct (Math_min_spec 1 (0.80 + (score - 0.85))) as (M1 & M2 & [E|E]);
      rewrite E in *; repeat split; auto; lra.
  - destruct (Math_min_spec 1 (0.80 + (0.15 - score))) as (M1 & M2 & [E|E]);
      rewrite E in *; repeat split; auto; lra.
  - repeat split; auto; lra.
Qed.

Lemma truthy_nonzero (a : Q) : truthy a = true -> ~ a == 0.
Proof.
  unfold truthy. rewrite negb_true_iff. intros H E.
  apply Qeq_bool_iff in E. congruence.
Qed.

Lemma generateSignals_pairs_sublist sentiments (entries : list MLPredictor.Entry) :
  sublist
    (MLPredictor.pair <$> MLPredictor.generateSignals true sentiments entries)
    (MLPredictor.e_pair <$> entries).
Proof.
  unfold MLPredictor.generateSignals. cbn [negb].
  induction entries as [|e entries IH]; [constructor|].
  cbn [omap list_omap]. rewrite (fmap_cons MLPredictor.e_pair).
  destruct (truthy (MLPredictor.e_last e)).
  - rewrite fmap_cons.
    replace (MLPredictor.pair (MLPredictor.signalFor (MLPredictor.e_pair e)
               (MLPredictor.e_last e)
               (SentimentAnalyzer.getSentiment sentiments (MLPredictor.e_pair e))
               (MLPredictor.e_technical e) (MLPredictor.e_hold e)))
      with (MLPredictor.e_pair e).
    + now constructor.
    + unfold MLPredictor.signalFor.
      destruct (Qlt_bool 0.85 _); [reflexivity|].
      destruct (Qlt_bool _ 0.15); reflexivity.
  - now constructor.
Qed.

(** X25.  With the sentiments of an analyzer in any state reached from
    its constructor and HOLD draws in [0, 1), every signal
    [generateSignals] returns has a confidence in [0, 1], a sentiment
    score in [-1, 1] and a non-zero price; the signals come in the order
    of the snapshot keys, at most one per key: their pairs are a sublist
    of the keys; and there is none at all while the model is not
    loaded. *)
Theorem X25_generated_signals_well_formed (modelLoaded : bool)
    (draws : list (nat -> Q)) (entries : list MLPredictor.Entry) :
  Forall validEntry entries ->
  let signals :=
    MLPredictor.generateSignals modelLoaded (runFetches draws) entries in
  Forall wellFormedSignal signals /\
  sublist (MLPredictor.pair <$> signals) (MLPredictor.e_pair <$> entries) /\
  (modelLoaded = false -> signals = []).
Proof.
  intros Hentries signals. unfold signals. destruct modelLoaded.
  - split; [|split; [apply generateSignals_pairs_sublist | discriminate]].
    unfold MLPredictor.generateSignals. cbn [negb].
    induction Hentries as [|e entries [H0 H1] _ IH]; [constructor|].
    cbn [omap list_omap]. destruct (truthy (MLPredictor.e_last e)) eqn:Ht;
      [|exact IH].
    constructor; [|exact IH].
    destruct (runFetches_sentimentInv draws) as [Hr _].
    assert (-1 <= SentimentAnalyzer.getSentiment (runFetches draws)
                    (MLPredictor.e_pair e) /\
            SentimentAnalyzer.getSentiment (runFetches draws)
              (MLPredictor.e_pair e) <= 1) as [Hs0 Hs1].
    { rewrite getSentiment_value.
      destruct (runFetches draws !! MLPredictor.e_pair e) as [v|] eqn:E;
        cbn [default]; unfold id; [exact (Hr _ v E) | lra]. }
    apply signalFor_wellFormed; auto. now apply truthy_nonzero.
  - unfold MLPredictor.generateSignals. cbn [negb].
    split; [constructor|]. split; [apply sublist_nil_l | reflexivity].
Qed.

Lemma X25_witness :
  let signals := MLPredictor.generateSignals true (runFetches sampleFetches)
                   sampleEntries in
  Forall wellFormedSignal signals /\
  sublist (MLPredictor.pair <$> signals) (MLPredictor.e_pair <$> sampleEntries) /\
  (true = false -> signals = []).
Proof.
  apply (X25_generated_signals_well_formed true sampleFetches sampleEntries).
  repeat (constructor; [split; vm_compute; first [reflexivity | discriminate]|]).
  constructor.
Defined.

Example sampleEntries_signals :
  (MLPredictor.pair <$>
     MLPredictor.generateSignals true (runFetches sampleFetches) sampleEntries)
  = ["BTC/USDT"; "SOL/USDT"] /\
  (MLPredictor.action <$>
     MLPredictor.generateSignals true (runFetches sampleFetches) sampleEntries)
  = [MLPredictor.Act BUY; MLPredictor.HOLD].
Proof. split; vm_compute; reflexivity. Qed.
